(** * AstroAlch tutorial notebooks: catalog persistence and mean-distance estimation

    A shallow embedding of the two notebooks of the tutorial:

    - Tutorial 2 ("Interacting with Databases in Sessions"): the script that
      removes a stale [sessions.db], creates the [object] and [distance]
      tables, inserts 100 rows in each through a session, and queries them;
    - Tutorial 3 ("Estimating a Simple Mean"): the class [StellarPopulation]
      with its methods [generate] and [estimate_mean_distance].

    Python statements are embedded in a state-and-exception monad: a raised
    exception keeps the state reached so far, as in Python.  Python floats are
    modelled by exact rationals ([Q]); the random generators and the wall
    clock are oracles (streams indexed by the number of draws or readings). *)

From Stdlib Require Import List ZArith QArith Qround Qabs Lia Lqa String Bool Arith.
From Stdlib Require Import DecimalString DecimalNat Sorted.
Import ListNotations.

Local Open Scope Z_scope.

(** ** Python exceptions and the statement monad *)

Inductive Exn : Type :=
| OSError (errno : Z)            (* os.remove: ENOENT = 2, EACCES = 13, EPERM = 1, ... *)
| OperationalError               (* sqlalchemy.exc.OperationalError (no such table) *)
| AttributeError (attr : string) (* reading an attribute that was never assigned *)
| KeyboardInterrupt.

Inductive Result (A : Type) : Type :=
| Ok (a : A)
| Raise (e : Exn).

Arguments Ok {A} a.
Arguments Raise {A} e.

Definition M (S A : Type) : Type := S -> Result A * S.

Definition ret {S A : Type} (a : A) : M S A := fun s => (Ok a, s).

Definition bind {S A B : Type} (m : M S A) (k : A -> M S B) : M S B :=
  fun s => match m s with
           | (Ok a, s') => k a s'
           | (Raise e, s') => (Raise e, s')
           end.

Definition raise {S A : Type} (e : Exn) : M S A := fun s => (Raise e, s).

Definition gets {S A : Type} (f : S -> A) : M S A := fun s => (Ok (f s), s).

Definition modify {S : Type} (f : S -> S) : M S unit := fun s => (Ok tt, f s).

(** [try: body / except: handler]: a bare [except] catches every exception. *)
Definition try_except {S A : Type} (body : M S A) (handler : M S A) : M S A :=
  fun s => match body s with
           | (Ok a, s') => (Ok a, s')
           | (Raise _, s') => handler s'
           end.

(** [pass] *)
Definition pass {S : Type} : M S unit := ret tt.

Declare Scope py_scope.
Delimit Scope py_scope with py.
Notation "x <- m ;; k" := (bind m (fun x => k))
  (at level 61, m at next level, right associativity) : py_scope.
Notation "m ;; k" := (bind m (fun _ => k))
  (at level 61, right associativity) : py_scope.

Local Open Scope py_scope.

(** [for x in xs: body x] *)
Fixpoint for_each {S A : Type} (xs : list A) (body : A -> M S unit) : M S unit :=
  match xs with
  | [] => ret tt
  | x :: rest => body x ;; for_each rest body
  end.

(** [range(n)] *)
Definition range (n : nat) : list Z := map Z.of_nat (seq 0 n).

(** ** Tutorial 2: the catalog workflow *)

Module Object.
Record t : Type := { id : Z; ra : Q; dec : Q }.
End Object.

Module Distance.
Record t : Type := { id : Z; object_id : Z; distance : Q }.
End Distance.

(** Transient instances of the mapped classes, as built by the constructors
    [Object(ra=ra, dec=dec)] and [Distance(distance=d, object_id=i)]: the
    primary key is not set until the instance is flushed. *)
Inductive Mapped : Type :=
| new_object (ra dec : Q)
| new_distance (distance : Q) (object_id : Z).

(** The contents of the SQLite file: the two tables, rows in rowid order. *)
Record Database : Type := {
  object_table : list Object.t;
  distance_table : list Distance.t
}.

Definition empty_database : Database :=
  {| object_table := []; distance_table := [] |}.

Inductive Event : Type :=
| Ev_remove
| Ev_create_engine (url : string)
| Ev_create_all
| Ev_add (x : Mapped)
| Ev_commit.

Record World : Type := {
  sessions_db : option Database; (* the file 'sessions.db': absent, or its tables *)
  remove_fault : option Exn;     (* what os.remove raises on the existing file, if anything *)
  random_pos : nat;              (* draws of random.random() consumed so far *)
  session_new : list Mapped;     (* instances added to the session, not yet flushed *)
  log : list Event               (* calls made so far, oldest first *)
}.

Definition set_db (d : option Database) (w : World) : World :=
  {| sessions_db := d; remove_fault := remove_fault w; random_pos := random_pos w;
     session_new := session_new w; log := log w |}.

Definition set_random_pos (n : nat) (w : World) : World :=
  {| sessions_db := sessions_db w; remove_fault := remove_fault w; random_pos := n;
     session_new := session_new w; log := log w |}.

Definition set_session_new (l : list Mapped) (w : World) : World :=
  {| sessions_db := sessions_db w; remove_fault := remove_fault w;
     random_pos := random_pos w; session_new := l; log := log w |}.

Definition emit (e : Event) (w : World) : World :=
  {| sessions_db := sessions_db w; remove_fault := remove_fault w;
     random_pos := random_pos w; session_new := session_new w; log := log w ++ [e] |}.

Definition dbfile : string := "sessions.db".

Definition ENOENT : Z := 2.

(** [os.remove(dbfile)]: raises when the file is missing, raises the
    environment's fault when the file cannot be unlinked (and leaves it in
    place), and otherwise deletes the file. *)
Definition os_remove : M World unit :=
  fun w =>
    match sessions_db w with
    | None => (Raise (OSError ENOENT), emit Ev_remove w)
    | Some _ =>
        match remove_fault w with
        | Some e => (Raise e, emit Ev_remove w)
        | None => (Ok tt, emit Ev_remove (set_db None w))
        end
    end.

(** [sq.create_engine(url)]: lazy, no connection is made yet. *)
Definition create_engine (url : string) : M World string :=
  modify (emit (Ev_create_engine url)) ;; ret url.

(** [Base.metadata.create_all(engine)]: connecting creates the file when it is
    missing; tables that already exist are left as they are (checkfirst). *)
Definition create_all (engine : string) : M World unit :=
  modify (fun w =>
            emit Ev_create_all
                 (match sessions_db w with
                  | None => set_db (Some empty_database) w
                  | Some _ => w
                  end)).

(** The integer primary key of a new row: one more than the largest key in
    the table, 1 in an empty table. *)
Definition next_id (ids : list Z) : Z :=
  match ids with
  | [] => 1
  | x :: rest => 1 + fold_left Z.max rest x
  end.

(** INSERT of one flushed instance.  The foreign key of [distance.object_id]
    is declared but not checked on insert: the notebook's own run stores a row
    with [object_id = 0]. *)
Definition insert_row (x : Mapped) (db : Database) : Database :=
  match x with
  | new_object ra dec =>
      {| object_table :=
           object_table db ++
             [ {| Object.id := next_id (map Object.id (object_table db));
                  Object.ra := ra; Object.dec := dec |} ];
         distance_table := distance_table db |}
  | new_distance d i =>
      {| object_table := object_table db;
         distance_table :=
           distance_table db ++
             [ {| Distance.id := next_id (map Distance.id (distance_table db));
                  Distance.object_id := i; Distance.distance := d |} ] |}
  end.

Definition insert_all (xs : list Mapped) (db : Database) : Database :=
  fold_left (fun d x => insert_row x d) xs db.

(** [session = DBSession()]: a new session holds no pending instance. *)
Definition new_session : M World unit :=
  modify (set_session_new []).

(** [session.flush()]: the pending instances are inserted in the order they
    were added. *)
Definition flush : M World unit :=
  fun w =>
    match session_new w with
    | [] => (Ok tt, w)
    | pending =>
        match sessions_db w with
        | None => (Raise OperationalError, w)
        | Some db =>
            (Ok tt,
             set_session_new [] (set_db (Some (insert_all pending db)) w))
        end
    end.

(** [session.add(x)] *)
Definition add (x : Mapped) : M World unit :=
  modify (fun w => emit (Ev_add x) (set_session_new (session_new w ++ [x]) w)).

(** [session.commit()] *)
Definition commit : M World unit :=
  flush ;; modify (emit Ev_commit).

Section Catalog.

(** The stream of values returned by successive calls of [random.random()]. *)
Variable random_stream : nat -> Q.

(** [random.uniform(a, b)] is [a + (b-a) * random()]. *)
Definition uniform (a b : Q) : M World Q :=
  fun w => (Ok (a + (b - a) * random_stream (random_pos w))%Q,
            set_random_pos (S (random_pos w)) w).

(** The first insertion loop; the notebook runs it with [N = 100]. *)
Definition insert_objects (N : nat) : M World unit :=
  for_each (range N) (fun i =>
    ra <- uniform 9.0%Q 11.0%Q ;;
    dec <- uniform (-30.0)%Q (-33.0)%Q ;;
    add (new_object ra dec) ;;
    commit).

(** The second insertion loop; the notebook runs it with [N = 100]. *)
Definition insert_distances (N : nat) : M World unit :=
  for_each (range N) (fun i =>
    d <- uniform 40%Q 60%Q ;;
    add (new_distance d i) ;;
    commit).

(** [try: os.remove(dbfile) / except: pass] *)
Definition remove_stale : M World unit :=
  try_except os_remove pass.

(** Cells 6 to 8 of the notebook: fresh file, engine, tables. *)
Definition create_database : M World string :=
  remove_stale ;;
  engine <- create_engine ("sqlite:///" ++ dbfile) ;;
  create_all engine ;;
  ret engine.

(** The whole catalog workflow, with the batch size as a parameter.
    ([Base.metadata.bind = engine] and [sessionmaker(bind=engine)] only record
    the engine; they touch neither the file nor the session.) *)
Definition catalog_workflow (N : nat) : M World unit :=
  create_database ;;
  new_session ;;
  insert_objects N ;;
  insert_distances N.

Definition notebook : M World unit := catalog_workflow 100.

(** [session.query(Object).first()] *)
Definition query_object_first : M World (option Object.t) :=
  flush ;;
  fun w => match sessions_db w with
           | None => (Raise OperationalError, w)
           | Some db => (Ok (hd_error (object_table db)), w)
           end.

(** [session.query(Object)] iterated: the full scan. *)
Definition query_object_all : M World (list Object.t) :=
  flush ;;
  fun w => match sessions_db w with
           | None => (Raise OperationalError, w)
           | Some db => (Ok (object_table db), w)
           end.

(** [np.array([d.distance for d in session.query(Distance)])] *)
Definition query_distances : M World (list Q) :=
  flush ;;
  fun w => match sessions_db w with
           | None => (Raise OperationalError, w)
           | Some db => (Ok (map Distance.distance (distance_table db)), w)
           end.

(** [session.query(Distance).filter(Distance.object_id == v)] iterated. *)
Definition query_distance_filter (v : Z) : M World (list Distance.t) :=
  flush ;;
  fun w => match sessions_db w with
           | None => (Raise OperationalError, w)
           | Some db =>
               (Ok (filter (fun d => Z.eqb (Distance.object_id d) v) (distance_table db)), w)
           end.

(** [session.query(Distance).filter(Distance.object_id == v).first()] *)
Definition query_distance_filter_first (v : Z) : M World (option Distance.t) :=
  rows <- query_distance_filter v ;;
  ret (hd_error rows).

End Catalog.

(** A world before the notebook runs. *)
Definition initial_world (file : option Database) (fault : option Exn) : World :=
  {| sessions_db := file; remove_fault := fault; random_pos := 0%nat;
     session_new := []; log := [] |}.


(** ** Tutorial 3: the stellar population and its mean distance *)

(** [np.sum] accumulates the entries one after the other. *)
Definition np_sum (a : list Q) : Q := fold_left Qplus a 0%Q.

(** [np.mean(a)]: the sum divided by the number of entries.  On an empty
    array NumPy returns [nan] (with a warning, no exception): [None] here. *)
Definition np_mean (a : list Q) : option Q :=
  match a with
  | [] => None
  | _ :: _ => Some (np_sum a / inject_Z (Z.of_nat (List.length a)))%Q
  end.

(** Round to the nearest integer, ties to the even one ([np.rint]). *)
Definition rint (x : Q) : Z :=
  let f := Qfloor x in
  match Qcompare (x - inject_Z f) (1 # 2) with
  | Lt => f
  | Gt => f + 1
  | Eq => if Z.even f then f else f + 1
  end.

(** [np.round(x, decimals)]: scale by [10^decimals], round, scale back. *)
Definition np_round (x : Q) (decimals : nat) : Q :=
  (inject_Z (rint (x * inject_Z (10 ^ Z.of_nat decimals)))
   / inject_Z (10 ^ Z.of_nat decimals))%Q.

(** [str(k)] for a non-negative integer. *)
Definition str (k : nat) : string := NilZero.string_of_uint (Nat.to_uint k).

Inductive Call : Type :=
| Call_randn (n : nat)
| Call_time (reading : Q)
| Call_mean.

Module StellarPopulation.

(** The attributes of an instance.  [__init__] assigns [distance] only; the
    others do not exist ([None]) until [generate] assigns them. *)
Record t : Type := {
  distance : Q;
  N : option nat;
  rms_error : option Q;
  d_obs : option (list Q);
  id : option (list string)
}.

(** The interpreter state of the notebook: the instance the methods are
    called on, the positions in the two oracles, and the calls made. *)
Record Runtime : Type := {
  self : t;
  randn_pos : nat;
  clock_pos : nat;
  calls : list Call
}.

Definition set_self (p : t) (r : Runtime) : Runtime :=
  {| self := p; randn_pos := randn_pos r; clock_pos := clock_pos r; calls := calls r |}.

(** Reading an attribute raises [AttributeError] when it was never assigned. *)
Definition getattr {A : Type} (name : string) (field : t -> option A) : M Runtime A :=
  fun r => match field (self r) with
           | Some v => (Ok v, r)
           | None => raise (AttributeError name) r
           end.

Definition set_N (n : nat) : M Runtime unit :=
  modify (fun r => set_self {| distance := distance (self r); N := Some n;
                               rms_error := rms_error (self r); d_obs := d_obs (self r);
                               id := id (self r) |} r).

Definition set_rms_error (e : Q) : M Runtime unit :=
  modify (fun r => set_self {| distance := distance (self r); N := N (self r);
                               rms_error := Some e; d_obs := d_obs (self r);
                               id := id (self r) |} r).

Definition set_d_obs (d : list Q) : M Runtime unit :=
  modify (fun r => set_self {| distance := distance (self r); N := N (self r);
                               rms_error := rms_error (self r); d_obs := Some d;
                               id := id (self r) |} r).

Definition set_id (l : list string) : M Runtime unit :=
  modify (fun r => set_self {| distance := distance (self r); N := N (self r);
                               rms_error := rms_error (self r); d_obs := d_obs (self r);
                               id := Some l |} r).

(** [StellarPopulation(distance)] *)
Definition __init__ (distance : Q) : t :=
  {| distance := distance; N := None; rms_error := None; d_obs := None; id := None |}.

Section Methods.

(** The standard-normal samples returned by NumPy's generator, in order, and
    the successive readings of [time.time()], in seconds. *)
Variable normal_stream : nat -> Q.
Variable clock : nat -> Q.

(** [np.random.randn(n)] *)
Definition randn (n : nat) : M Runtime (list Q) :=
  fun r => (Ok (map normal_stream (seq (randn_pos r) n)),
            {| self := self r; randn_pos := (randn_pos r + n)%nat;
               clock_pos := clock_pos r; calls := calls r ++ [Call_randn n] |}).

(** [wallclock.time()] *)
Definition wallclock_time : M Runtime Q :=
  fun r => (Ok (clock (clock_pos r)),
            {| self := self r; randn_pos := randn_pos r;
               clock_pos := S (clock_pos r);
               calls := calls r ++ [Call_time (clock (clock_pos r))] |}).

(** [np.mean(a)] as a call. *)
Definition call_mean (a : list Q) : M Runtime (option Q) :=
  fun r => (Ok (np_mean a),
            {| self := self r; randn_pos := randn_pos r; clock_pos := clock_pos r;
               calls := calls r ++ [Call_mean] |}).

Definition generate (N : nat) (rms_error : Q) : M Runtime unit :=
  set_N N ;;
  set_rms_error rms_error ;;
  d <- gets (fun r => distance (self r)) ;;
  e <- getattr "rms_error" StellarPopulation.rms_error ;;
  d' <- gets (fun r => distance (self r)) ;;
  n <- getattr "N" StellarPopulation.N ;;
  z <- randn n ;;
  set_d_obs (map (fun zk => d + (e * d') * zk)%Q z) ;;
  n' <- getattr "N" StellarPopulation.N ;;
  set_id (map str (seq 0 n')).

(** [generate()] with its default arguments. *)
Definition generate_default : M Runtime unit := generate 1000 0.1%Q.

Definition estimate_mean_distance : M Runtime (option Q * Q) :=
  start <- wallclock_time ;;
  a <- getattr "d_obs" StellarPopulation.d_obs ;;
  mu <- call_mean a ;;
  end_ <- wallclock_time ;;
  let time := ((end_ - start) * 1e3)%Q in
  ret (mu, time).

(** The last cell: the estimate as printed and the time as printed. *)
Definition report : M Runtime (option Q * Q) :=
  r <- estimate_mean_distance ;;
  ret (fst r, np_round (snd r) 1).

End Methods.

End StellarPopulation.

Definition start_runtime (p : StellarPopulation.t) : StellarPopulation.Runtime :=
  {| StellarPopulation.self := p; StellarPopulation.randn_pos := 0%nat;
     StellarPopulation.clock_pos := 0%nat; StellarPopulation.calls := [] |}.


(** ** Specification vocabulary *)

(** The instances the first loop builds when it starts drawing at position
    [pos] of the random stream and runs [n] times. *)
Fixpoint drawn_objects (random_stream : nat -> Q) (pos n : nat) : list Mapped :=
  match n with
  | O => []
  | S n' =>
      new_object (9.0 + (11.0 - 9.0) * random_stream pos)%Q
                 (-30.0 + (-33.0 - -30.0) * random_stream (S pos))%Q
        :: drawn_objects random_stream (S (S pos)) n'
  end.

(** The instances the second loop builds for the counter values [counters]. *)
Fixpoint drawn_distances (random_stream : nat -> Q) (pos : nat) (counters : list Z)
  : list Mapped :=
  match counters with
  | [] => []
  | i :: rest =>
      new_distance (40 + (60 - 40) * random_stream pos)%Q i
        :: drawn_distances random_stream (S pos) rest
  end.

(** Everything one run of the workflow adds to the session, in order. *)
Definition drawn (random_stream : nat -> Q) (pos N : nat) : list Mapped :=
  drawn_objects random_stream pos N
    ++ drawn_distances random_stream (pos + 2 * N) (range N).

(** The removal of the stale file goes through: there is no file, or nothing
    prevents unlinking it. *)
Definition removable (w : World) : Prop :=
  sessions_db w = None \/ remove_fault w = None.

(** The tables the session works on once the schema is created. *)
Definition database_after_setup (w : World) : Database :=
  match sessions_db w, remove_fault w with
  | Some old, Some _ => old
  | _, _ => empty_database
  end.

(** Every [distance.object_id] is the [id] of some row of [object]. *)
Definition referential_integrity (db : Database) : bool :=
  forallb (fun d => existsb (fun o => Z.eqb (Object.id o) (Distance.object_id d))
                            (object_table db))
          (distance_table db).

(** The calls of the set-up cells, and the calls of the two loops for the
    instances [xs]: one [add] and one [commit] per instance. *)
Definition setup_events : list Event :=
  [Ev_remove; Ev_create_engine "sqlite:///sessions.db"; Ev_create_all].

Definition add_commit_events (xs : list Mapped) : list Event :=
  flat_map (fun x => [Ev_add x; Ev_commit]) xs.

Definition is_commit (e : Event) : bool :=
  match e with Ev_commit => true | _ => false end.

(** The tables of a world, the empty schema when the file is missing. *)
Definition tables (w : World) : Database :=
  match sessions_db w with
  | Some db => db
  | None => empty_database
  end.

(** The arithmetic mean as the specification words it: the sum of the
    entries over their number. *)
Fixpoint total (xs : list Q) : Q :=
  match xs with
  | [] => 0%Q
  | x :: rest => (x + total rest)%Q
  end.

Definition arithmetic_mean (xs : list Q) : Q :=
  (total xs / inject_Z (Z.of_nat (List.length xs)))%Q.

(** The observations the specification describes: entry [k] is the true
    distance plus the scaled [k]-th sample drawn from position [pos] on. *)
Definition observations (normal_stream : nat -> Q) (mu sigma : Q) (pos n : nat) : list Q :=
  map (fun k => mu + sigma * mu * normal_stream (pos + k)%nat)%Q (seq 0 n).

(** The runtime after [k] further calls of [estimate_mean_distance]. *)
Fixpoint after_calls (clock : nat -> Q) (k : nat) (r : StellarPopulation.Runtime)
  : StellarPopulation.Runtime :=
  match k with
  | O => r
  | S k' => after_calls clock k' (snd (StellarPopulation.estimate_mean_distance clock r))
  end.

(** The estimate alone, out of a method result. *)
Definition estimate_of (res : Result (option Q * Q)) : Result (option Q) :=
  match res with
  | Ok (mu, _) => Ok mu
  | Raise e => Raise e
  end.

(** Concrete inputs used to run the definitions. *)
Definition sample_stream (k : nat) : Q := (inject_Z (Z.of_nat (k mod 4)) / 4)%Q.

Definition sample_normal (k : nat) : Q := (inject_Z (Z.of_nat (k mod 5)) - 2)%Q.

Definition sample_clock (k : nat) : Q := (inject_Z (Z.of_nat k) * 0.0055)%Q.

Definition stale_database : Database :=
  {| object_table := [ {| Object.id := 1; Object.ra := 10.23%Q; Object.dec := (-32.36)%Q |} ];
     distance_table :=
       [ {| Distance.id := 1; Distance.object_id := 0; Distance.distance := 50%Q |} ] |}.

Definition EACCES : Z := 13.

Definition EPERM : Z := 1.

(** The integers SQLite stores and its driver accepts as a bound value:
    signed 64-bit. *)
Definition sqlite_integer (v : Z) : Prop :=
  -9223372036854775808 <= v <= 9223372036854775807.

(** ** Further cells of the notebooks *)

(** [obj = session.query(Object).first()] followed by [obj.id, obj.ra, obj.dec]:
    reading an attribute of [None] raises. *)
Definition first_object_cell : M World (Z * Q * Q) :=
  obj <- query_object_first ;;
  match obj with
  | Some o => ret (Object.id o, Object.ra o, Object.dec o)
  | None => raise (AttributeError "id")
  end.


(** The environment changes what a later [os.remove] will do. *)
Definition set_remove_fault (fault : option Exn) (w : World) : World :=
  {| sessions_db := sessions_db w; remove_fault := fault; random_pos := random_pos w;
     session_new := session_new w; log := log w |}.

(** ** Further specification vocabulary *)

(** Row [k] of each table after a run that drew from position [pos] on and
    started with keys from [first]. *)
Definition object_row (random_stream : nat -> Q) (first : Z) (pos k : nat) : Object.t :=
  {| Object.id := first + Z.of_nat k;
     Object.ra := (9.0 + (11.0 - 9.0) * random_stream (pos + 2 * k)%nat)%Q;
     Object.dec := (-30.0 + (-33.0 - -30.0) * random_stream (S (pos + 2 * k)))%Q |}.

Definition distance_row (random_stream : nat -> Q) (first : Z) (pos k : nat) : Distance.t :=
  {| Distance.id := first + Z.of_nat k;
     Distance.object_id := Z.of_nat k;
     Distance.distance := (40 + (60 - 40) * random_stream (pos + k)%nat)%Q |}.

(** [random.random()] returns values in the half-open unit interval. *)
Definition unit_interval (random_stream : nat -> Q) : Prop :=
  forall k, (0 <= random_stream k)%Q /\ (random_stream k < 1)%Q.

(** The primary keys of both tables increase strictly in scan order. *)
Definition keys_increasing (db : Database) : Prop :=
  StronglySorted Z.lt (map Object.id (object_table db)) /\
  StronglySorted Z.lt (map Distance.id (distance_table db)).

(** [int(s)] for a decimal string. *)
Definition int_of_str (s : string) : option nat :=
  option_map Nat.of_uint (NilZero.uint_of_string s).

(** A random stream that always returns one half. *)
Definition half_stream (k : nat) : Q := (1 # 2)%Q.

(** * Properties *)

(** ** Running the monad *)

Lemma bind_ok {S A B : Type} (m : M S A) (k : A -> M S B) (s s' : S) (a : A) :
  m s = (Ok a, s') -> bind m k s = k a s'.
Proof. intros H. unfold bind. rewrite H. reflexivity. Qed.

(** One statement of a sequence that runs to completion by computation. *)
Ltac run_bind := erewrite bind_ok; [|reflexivity].

Lemma bind_raise {S A B : Type} (m : M S A) (k : A -> M S B) (s s' : S) (e : Exn) :
  m s = (Raise e, s') -> bind m k s = (Raise e, s').
Proof. intros H. unfold bind. rewrite H. reflexivity. Qed.

Lemma try_except_pass_ok {S : Type} (body : M S unit) (s : S) :
  try_except body pass s = (Ok tt, snd (body s)).
Proof.
  unfold try_except, pass, ret.
  destruct (body s) as [[[]|e] s']; reflexivity.
Qed.

(** ** Primary keys *)

Lemma next_id_snoc (ids : list Z) :
  next_id (ids ++ [next_id ids]) = next_id ids + 1.
Proof.
  destruct ids as [|x rest]; [reflexivity|].
  cbn [next_id app]. rewrite fold_left_app. cbn [fold_left]. lia.
Qed.

Lemma range_length (n : nat) : List.length (range n) = n.
Proof. unfold range. now rewrite length_map, length_seq. Qed.

Lemma drawn_objects_length rs pos n : List.length (drawn_objects rs pos n) = n.
Proof. revert pos. induction n; intros pos; cbn; [reflexivity | now rewrite IHn]. Qed.

Lemma drawn_distances_length rs pos cs :
  List.length (drawn_distances rs pos cs) = List.length cs.
Proof. revert pos. induction cs; intros pos; cbn; [reflexivity | now rewrite IHcs]. Qed.

Lemma insert_all_app xs ys db :
  insert_all (xs ++ ys) db = insert_all ys (insert_all xs db).
Proof. unfold insert_all. apply fold_left_app. Qed.

(** Inserting objects leaves the distance table alone and extends the object
    table with consecutive keys. *)
Lemma insert_objects_tables rs n : forall pos db,
  distance_table (insert_all (drawn_objects rs pos n) db) = distance_table db /\
  exists rows,
    object_table (insert_all (drawn_objects rs pos n) db) = object_table db ++ rows /\
    map Object.id rows =
      map (fun k => next_id (map Object.id (object_table db)) + Z.of_nat k) (seq 0 n).
Proof.
  induction n as [|n IH]; intros pos db.
  - split; [reflexivity|]. exists []. now rewrite app_nil_r.
  - cbn [drawn_objects]. unfold insert_all in *. cbn [fold_left].
    set (db1 := insert_row _ db).
    destruct (IH (S (S pos)) db1) as [Hd [rows [Ho Hids]]].
    split; [rewrite Hd; reflexivity|].
    exists ({| Object.id := next_id (map Object.id (object_table db));
               Object.ra := (9.0 + (11.0 - 9.0) * rs pos)%Q;
               Object.dec := (-30.0 + (-33.0 - -30.0) * rs (S pos))%Q |} :: rows).
    split.
    + rewrite Ho. subst db1. cbn [insert_row object_table].
      now rewrite <- app_assoc.
    + cbn [map seq]. f_equal; [cbn [Object.id]; lia|].
      rewrite Hids. subst db1. cbn [insert_row object_table].
      rewrite map_app. cbn [map Object.id]. rewrite next_id_snoc.
      rewrite <- seq_shift, map_map. apply map_ext. intros k. lia.
Qed.

(** Inserting distances leaves the object table alone and appends one row per
    counter value, carrying that value. *)
Lemma insert_distances_tables rs cs : forall pos db,
  object_table (insert_all (drawn_distances rs pos cs) db) = object_table db /\
  exists rows,
    distance_table (insert_all (drawn_distances rs pos cs) db) = distance_table db ++ rows /\
    map Distance.object_id rows = cs /\
    map Distance.id rows =
      map (fun k => next_id (map Distance.id (distance_table db)) + Z.of_nat k)
          (seq 0 (List.length cs)).
Proof.
  induction cs as [|c cs IH]; intros pos db.
  - split; [reflexivity|]. exists []. now rewrite app_nil_r.
  - cbn [drawn_distances]. unfold insert_all in *. cbn [fold_left].
    set (db1 := insert_row _ db).
    destruct (IH (S pos) db1) as [Ho [rows [Hd [Hobj Hids]]]].
    split; [rewrite Ho; reflexivity|].
    exists ({| Distance.id := next_id (map Distance.id (distance_table db));
               Distance.object_id := c;
               Distance.distance := (40 + (60 - 40) * rs pos)%Q |} :: rows).
    split; [|split].
    + rewrite Hd. subst db1. cbn [insert_row distance_table].
      now rewrite <- app_assoc.
    + cbn [map Distance.object_id]. now rewrite Hobj.
    + cbn [map seq List.length]. f_equal; [cbn [Distance.id]; lia|].
      rewrite Hids. subst db1. cbn [insert_row distance_table].
      rewrite map_app. cbn [map Distance.id]. rewrite next_id_snoc.
      rewrite <- seq_shift, map_map. apply map_ext. intros k. lia.
Qed.

(** ** The insertion loops *)

Lemma object_loop_run rs (xs : list Z) : forall w db,
  sessions_db w = Some db -> session_new w = [] ->
  for_each xs (fun _ : Z =>
    ra <- uniform rs 9.0%Q 11.0%Q ;;
    dec <- uniform rs (-30.0)%Q (-33.0)%Q ;;
    add (new_object ra dec) ;;
    commit) w
  = (Ok tt,
     {| sessions_db :=
          Some (insert_all (drawn_objects rs (random_pos w) (List.length xs)) db);
        remove_fault := remove_fault w;
        random_pos := (random_pos w + 2 * List.length xs)%nat;
        session_new := [];
        log := log w ++ add_commit_events
                          (drawn_objects rs (random_pos w) (List.length xs)) |}).
Proof.
  induction xs as [|x xs IH]; intros [file fault pos pending lg] db Hdb Hnew;
    cbn in Hdb, Hnew; subst file pending.
  - cbn. rewrite app_nil_r, Nat.add_0_r. reflexivity.
  - cbn [for_each]. run_bind.
    rewrite (IH _ (insert_row (new_object (9.0 + (11.0 - 9.0) * rs pos)%Q
                                 (-30.0 + (-33.0 - -30.0) * rs (S pos))%Q) db));
      [|reflexivity|reflexivity].
    cbn [random_pos remove_fault log emit set_session_new set_db set_random_pos
         sessions_db session_new List.length drawn_objects add_commit_events flat_map].
    f_equal. f_equal.
    + lia.
    + rewrite <- !app_assoc. reflexivity.
Qed.

Lemma distance_loop_run rs (xs : list Z) : forall w db,
  sessions_db w = Some db -> session_new w = [] ->
  for_each xs (fun i : Z =>
    d <- uniform rs 40%Q 60%Q ;;
    add (new_distance d i) ;;
    commit) w
  = (Ok tt,
     {| sessions_db := Some (insert_all (drawn_distances rs (random_pos w) xs) db);
        remove_fault := remove_fault w;
        random_pos := (random_pos w + List.length xs)%nat;
        session_new := [];
        log := log w ++ add_commit_events (drawn_distances rs (random_pos w) xs) |}).
Proof.
  induction xs as [|x xs IH]; intros [file fault pos pending lg] db Hdb Hnew;
    cbn in Hdb, Hnew; subst file pending.
  - cbn. rewrite app_nil_r, Nat.add_0_r. reflexivity.
  - cbn [for_each]. run_bind.
    rewrite (IH _ (insert_row (new_distance (40 + (60 - 40) * rs pos)%Q x) db));
      [|reflexivity|reflexivity].
    cbn [random_pos remove_fault log emit set_session_new set_db set_random_pos
         sessions_db session_new List.length drawn_distances add_commit_events flat_map].
    f_equal. f_equal.
    + lia.
    + rewrite <- !app_assoc. reflexivity.
Qed.

(** ** The workflow in closed form *)

Lemma create_database_run (w : World) :
  create_database w
  = (Ok "sqlite:///sessions.db"%string,
     {| sessions_db := Some (database_after_setup w);
        remove_fault := remove_fault w;
        random_pos := random_pos w;
        session_new := session_new w;
        log := log w ++ setup_events |}).
Proof.
  destruct w as [[old|] [e|] pos pending lg]; cbv -[app];
    rewrite <- !app_assoc; reflexivity.
Qed.

Lemma catalog_workflow_run rs (N : nat) (w : World) :
  catalog_workflow rs N w
  = (Ok tt,
     {| sessions_db :=
          Some (insert_all (drawn rs (random_pos w) N) (database_after_setup w));
        remove_fault := remove_fault w;
        random_pos := (random_pos w + 3 * N)%nat;
        session_new := [];
        log := log w ++ setup_events ++ add_commit_events (drawn rs (random_pos w) N) |}).
Proof.
  unfold catalog_workflow.
  erewrite bind_ok; [|apply create_database_run].
  run_bind.
  unfold insert_objects.
  erewrite bind_ok;
    [|apply object_loop_run with (db := database_after_setup w); reflexivity].
  unfold insert_distances.
  erewrite distance_loop_run; [|reflexivity|reflexivity].
  cbn [random_pos remove_fault log sessions_db session_new set_session_new].
  rewrite !range_length. unfold drawn, add_commit_events.
  rewrite insert_all_app, flat_map_app, <- !app_assoc.
  do 2 f_equal. lia.
Qed.

Lemma removable_setup (w : World) :
  removable w -> database_after_setup w = empty_database.
Proof.
  unfold removable, database_after_setup.
  intros [H|H]; rewrite H; [reflexivity|].
  destruct (sessions_db w); reflexivity.
Qed.

(** What one run adds to the two tables, whatever they held before. *)
Lemma drawn_tables rs pos N db :
  exists orows drows,
    object_table (insert_all (drawn rs pos N) db) = object_table db ++ orows /\
    distance_table (insert_all (drawn rs pos N) db) = distance_table db ++ drows /\
    map Object.id orows =
      map (fun k => next_id (map Object.id (object_table db)) + Z.of_nat k) (seq 0 N) /\
    map Distance.object_id drows = range N /\
    map Distance.id drows =
      map (fun k => next_id (map Distance.id (distance_table db)) + Z.of_nat k) (seq 0 N).
Proof.
  unfold drawn. rewrite insert_all_app.
  destruct (insert_objects_tables rs N pos db) as [Hd [orows [Ho Hoid]]].
  destruct (insert_distances_tables rs (range N) (pos + 2 * N)
              (insert_all (drawn_objects rs pos N) db)) as [Ho' [drows [Hd' [Hobj Hdid]]]].
  exists orows, drows. rewrite Ho', Hd', Hd, Ho.
  rewrite range_length, Hd in Hdid. repeat split; assumption.
Qed.

Lemma seq_1_ids (N : nat) :
  map (fun k => next_id [] + Z.of_nat k) (seq 0 N) = map Z.of_nat (seq 1 N).
Proof.
  rewrite <- seq_shift, map_map. apply map_ext. intros k. cbn [next_id]. lia.
Qed.

Lemma range_NoDup (N : nat) : NoDup (range N).
Proof.
  unfold range. apply NoDup_map_inv with (f := Z.to_nat).
  rewrite map_map. erewrite map_ext; [rewrite map_id; apply seq_NoDup|].
  intros k. apply Nat2Z.id.
Qed.

(** Running a query on a world whose session has nothing pending. *)
Lemma query_object_all_run (w : World) (db : Database) :
  sessions_db w = Some db -> session_new w = [] ->
  query_object_all w = (Ok (object_table db), w).
Proof.
  intros Hdb Hnew. unfold query_object_all, bind, flush. now rewrite Hnew, Hdb.
Qed.

Lemma query_object_first_run (w : World) (db : Database) :
  sessions_db w = Some db -> session_new w = [] ->
  query_object_first w = (Ok (hd_error (object_table db)), w).
Proof.
  intros Hdb Hnew. unfold query_object_first, bind, flush. now rewrite Hnew, Hdb.
Qed.

Lemma query_distance_filter_run (v : Z) (w : World) (db : Database) :
  sessions_db w = Some db -> session_new w = [] ->
  query_distance_filter v w
  = (Ok (filter (fun d => Z.eqb (Distance.object_id d) v) (distance_table db)), w).
Proof.
  intros Hdb Hnew. unfold query_distance_filter, bind, flush. now rewrite Hnew, Hdb.
Qed.

(** ** Claims about the catalog workflow *)

(** C1 (the code departs from the claim).  In the notebook as written, run
    with the store file absent or removable, the stored catalog violates
    referential integrity: the first distance row references object 0, and
    the object keys start at 1. *)
Theorem notebook_breaks_referential_integrity (rs : nat -> Q) (file : option Database) :
  let db := tables (snd (notebook rs (initial_world file None))) in
  referential_integrity db = false /\
  (exists d, In d (distance_table db) /\ Distance.object_id d = 0) /\
  (forall o, In o (object_table db) -> 1 <= Object.id o).
Proof.
  unfold notebook. rewrite catalog_workflow_run.
  cbn [snd tables sessions_db initial_world random_pos remove_fault].
  rewrite removable_setup by (right; reflexivity).
  destruct (drawn_tables rs 0 100 empty_database)
    as [orows [drows [Ho [Hd [Hoid [Hobj _]]]]]].
  cbn [empty_database object_table distance_table app] in Ho, Hd, Hoid.
  split; [|split].
  - unfold referential_integrity. rewrite Ho, Hd.
    destruct drows as [|d drows]; [discriminate Hobj|].
    injection Hobj as Hd0 _. cbn [forallb].
    replace (existsb _ orows) with false; [reflexivity|].
    symmetry. apply not_true_is_false. intros Hex.
    apply existsb_exists in Hex. destruct Hex as [o [Hin Heq]].
    apply (in_map Object.id) in Hin. rewrite Hoid in Hin.
    apply in_map_iff in Hin. destruct Hin as [k [Hk _]].
    apply Z.eqb_eq in Heq. cbn [map next_id] in Hk. cbn in Hd0. lia.
  - rewrite Hd. destruct drows as [|d drows]; [discriminate Hobj|].
    injection Hobj as Hd0 _. exists d. split; [left; reflexivity|exact Hd0].
  - intros o Hin. rewrite Ho in Hin.
    apply (in_map Object.id) in Hin. rewrite Hoid in Hin.
    apply in_map_iff in Hin. destruct Hin as [k [Hk _]].
    cbn [map next_id] in Hk. lia.
Qed.

(** C2.  Starting from a store file that is absent or removable, after the
    workflow has inserted [N] objects the full scan of the object table
    returns [N] rows whose keys are 1, 2, ..., N in that order, and the
    first-row query returns the head of that scan, whose key is 1 as soon as
    there is a row. *)
Theorem object_scan_contiguous (rs : nat -> Q) (N : nat) (w : World) :
  removable w ->
  exists rows w',
    (catalog_workflow rs N ;; query_object_all) w = (Ok rows, w') /\
    List.length rows = N /\
    map Object.id rows = map Z.of_nat (seq 1 N) /\
    (catalog_workflow rs N ;; query_object_first) w = (Ok (hd_error rows), w') /\
    option_map Object.id (hd_error rows) = if Nat.eqb N 0 then None else Some 1.
Proof.
  intros Hrem.
  destruct (drawn_tables rs (random_pos w) N empty_database)
    as [orows [drows [Ho [_ [Hoid _]]]]].
  cbn [empty_database object_table app] in Ho, Hoid. rewrite seq_1_ids in Hoid.
  exists orows. eexists.
  erewrite !bind_ok by apply catalog_workflow_run.
  erewrite query_object_all_run, query_object_first_run by reflexivity.
  rewrite removable_setup, Ho by exact Hrem.
  split; [reflexivity|]. split; [|split; [exact Hoid|split; [reflexivity|]]].
  - rewrite <- (length_map Object.id), Hoid, length_map. apply length_seq.
  - destruct N as [|N]; destruct orows as [|o orows]; try discriminate Hoid;
      [reflexivity|].
    cbn in Hoid |- *. now injection Hoid as -> _.
Qed.

(** C3.  Whatever the store held before, the distance rows one run appends
    are [N] rows whose [object_id] values are 0, 1, ..., N-1 in insertion
    order, hence pairwise distinct. *)
Theorem distance_object_ids_sequential (rs : nat -> Q) (N : nat) (w : World) :
  exists rows,
    distance_table (tables (snd (catalog_workflow rs N w)))
      = distance_table (database_after_setup w) ++ rows /\
    List.length rows = N /\
    map Distance.object_id rows = map Z.of_nat (seq 0 N) /\
    NoDup (map Distance.object_id rows).
Proof.
  rewrite catalog_workflow_run. cbn [snd tables sessions_db].
  destruct (drawn_tables rs (random_pos w) N (database_after_setup w))
    as [orows [drows [_ [Hd [_ [Hobj _]]]]]].
  exists drows. split; [exact Hd|]. split; [|split].
  - rewrite <- (length_map Distance.object_id), Hobj. apply range_length.
  - exact Hobj.
  - rewrite Hobj. apply range_NoDup.
Qed.

(** Filtering on a key column that holds consecutive integers. *)
Lemma filter_consecutive_keys (v : Z) (n : nat) : forall (a : nat) (rows : list Distance.t),
  map Distance.object_id rows = map Z.of_nat (seq a n) ->
  if (Z.of_nat a <=? v) && (v <? Z.of_nat (a + n))
  then exists d, filter (fun d => Z.eqb (Distance.object_id d) v) rows = [d] /\
                 Distance.object_id d = v
  else filter (fun d => Z.eqb (Distance.object_id d) v) rows = [].
Proof.
  induction n as [|n IH]; intros a rows Hrows.
  - apply map_eq_nil in Hrows. subst rows.
    destruct (Z.leb_spec (Z.of_nat a) v), (Z.ltb_spec v (Z.of_nat (a + 0)));
      cbn [andb]; try reflexivity. lia.
  - destruct rows as [|d rows]; [discriminate Hrows|].
    cbn [map seq] in Hrows. injection Hrows as Hd Hrest.
    specialize (IH (S a) rows Hrest). cbn [filter].
    destruct (Z.eqb_spec (Distance.object_id d) v) as [Heq|Hne].
    + replace ((Z.of_nat (S a) <=? v) && (v <? Z.of_nat (S a + n))) with false in IH
        by (symmetry; apply andb_false_iff; left; apply Z.leb_gt; lia).
      replace ((Z.of_nat a <=? v) && (v <? Z.of_nat (a + S n))) with true
        by (symmetry; apply andb_true_iff; split;
            [apply Z.leb_le | apply Z.ltb_lt]; lia).
      exists d. rewrite IH. split; [reflexivity|exact Heq].
    + replace ((Z.of_nat a <=? v) && (v <? Z.of_nat (a + S n)))
        with ((Z.of_nat (S a) <=? v) && (v <? Z.of_nat (S a + n))); [exact IH|].
      replace (a + S n)%nat with (S a + n)%nat by lia. f_equal.
      destruct (Z.leb_spec (Z.of_nat (S a)) v), (Z.leb_spec (Z.of_nat a) v);
        try reflexivity; lia.
Qed.

(** C5, as amended.  After a run that started from an absent or removable
    store file, and for a value [v] that SQLite can hold (a signed 64-bit
    integer), filtering the distance table on [object_id = v] yields exactly
    one row, which the first-match query returns, when [v] is one of the
    counter values 0..N-1; for any other such [v] the filter is empty and the
    first-match query returns the absent value, not an exception. *)
Theorem filter_first_one_or_none (rs : nat -> Q) (N : nat) (w : World) (v : Z) :
  removable w -> sqlite_integer v ->
  let w' := snd (catalog_workflow rs N w) in
  if (0 <=? v) && (v <? Z.of_nat N)
  then exists d, Distance.object_id d = v /\
                 query_distance_filter v w' = (Ok [d], w') /\
                 query_distance_filter_first v w' = (Ok (Some d), w')
  else query_distance_filter v w' = (Ok [], w') /\
       query_distance_filter_first v w' = (Ok None, w').
Proof.
  intros Hrem _ w'. subst w'. rewrite catalog_workflow_run. cbn [snd].
  rewrite removable_setup by exact Hrem.
  destruct (drawn_tables rs (random_pos w) N empty_database)
    as [orows [drows [_ [Hd [_ [Hobj _]]]]]].
  cbn [empty_database distance_table app] in Hd.
  pose proof (filter_consecutive_keys v N 0 drows Hobj) as Hf.
  cbn [Z.of_nat Nat.add] in Hf.
  unfold query_distance_filter_first.
  destruct ((0 <=? v) && (v <? Z.of_nat N)).
  - destruct Hf as [d [Hf Hv]]. exists d. split; [exact Hv|].
    erewrite bind_ok by (apply query_distance_filter_run; reflexivity).
    erewrite query_distance_filter_run by reflexivity.
    rewrite Hd, Hf. split; reflexivity.
  - erewrite bind_ok by (apply query_distance_filter_run; reflexivity).
    erewrite query_distance_filter_run by reflexivity.
    rewrite Hd, Hf. split; reflexivity.
Qed.

(** C6, as amended.  When the store file is absent, or present and nothing
    prevents its removal, the workflow attempts the removal first, then
    creates the engine and the schema, and ends with a store holding exactly
    the rows this run inserted into empty tables. *)
Theorem fresh_start_when_removable (rs : nat -> Q) (N : nat) (w : World) :
  removable w ->
  exists w',
    catalog_workflow rs N w = (Ok tt, w') /\
    sessions_db w' = Some (insert_all (drawn rs (random_pos w) N) empty_database) /\
    List.length (object_table (tables w')) = N /\
    List.length (distance_table (tables w')) = N /\
    log w' = log w ++ [Ev_remove; Ev_create_engine "sqlite:///sessions.db"; Ev_create_all]
                   ++ add_commit_events (drawn rs (random_pos w) N).
Proof.
  intros Hrem. eexists. split; [apply catalog_workflow_run|].
  cbn [sessions_db log tables]. rewrite removable_setup by exact Hrem.
  destruct (drawn_tables rs (random_pos w) N empty_database)
    as [orows [drows [Ho [Hd [Hoid [Hobj _]]]]]].
  cbn [empty_database object_table distance_table app] in Ho, Hd.
  split; [reflexivity|]. split; [|split; [|reflexivity]].
  - rewrite Ho, <- (length_map Object.id), Hoid, length_map. apply length_seq.
  - rewrite Hd, <- (length_map Distance.object_id), Hobj. apply range_length.
Qed.

(** C7.  Whatever the prior world, the calls the workflow makes after the
    set-up are, for each of the [2N] instances in turn, one [add] followed at
    once by one [commit]: [2N] commits for [2N] inserted rows. *)
Theorem one_commit_per_insert (rs : nat -> Q) (N : nat) (w : World) :
  exists (instances : list Mapped) (w' : World),
    catalog_workflow rs N w = (Ok tt, w') /\
    log w' = log w ++ setup_events
                   ++ flat_map (fun x => [Ev_add x; Ev_commit]) instances /\
    List.length instances = (2 * N)%nat /\
    List.length (filter is_commit (flat_map (fun x => [Ev_add x; Ev_commit]) instances))
      = (2 * N)%nat /\
    List.length (object_table (tables w'))
      = (List.length (object_table (database_after_setup w)) + N)%nat /\
    List.length (distance_table (tables w'))
      = (List.length (distance_table (database_after_setup w)) + N)%nat.
Proof.
  exists (drawn rs (random_pos w) N). eexists.
  split; [apply catalog_workflow_run|]. cbn [log tables sessions_db].
  assert (Hlen : List.length (drawn rs (random_pos w) N) = (2 * N)%nat).
  { unfold drawn. rewrite length_app, drawn_objects_length, drawn_distances_length,
      range_length. lia. }
  destruct (drawn_tables rs (random_pos w) N (database_after_setup w))
    as [orows [drows [Ho [Hd [Hoid [Hobj _]]]]]].
  split; [reflexivity|]. split; [exact Hlen|]. split; [|split].
  - rewrite <- Hlen. generalize (drawn rs (random_pos w) N).
    induction l as [|x l IH]; [reflexivity|]. cbn. now rewrite IH.
  - rewrite Ho, length_app, <- (length_map Object.id orows), Hoid, length_map, length_seq.
    reflexivity.
  - rewrite Hd, length_app, <- (length_map Distance.object_id drows), Hobj, range_length.
    reflexivity.
Qed.

(** Any exception can be what the removal of an existing file raises. *)
Lemma os_remove_raises_fault (e : Exn) (db : Database) :
  os_remove (initial_world (Some db) (Some e))
  = (Raise e, emit Ev_remove (initial_world (Some db) (Some e))).
Proof. reflexivity. Qed.

(** The removal of a missing file raises ENOENT. *)
Lemma os_remove_missing (fault : option Exn) :
  fst (os_remove (initial_world None fault)) = Raise (OSError ENOENT).
Proof. reflexivity. Qed.

(** C10.  Whatever exception the removal of the store file raises, the
    guarded removal completes normally, the workflow goes on to create the
    engine and the schema, and the exception never reaches the caller. *)
Theorem removal_failure_suppressed
  (rs : nat -> Q) (N : nat) (w w1 : World) (e : Exn) :
  os_remove w = (Raise e, w1) ->
  remove_stale w = (Ok tt, w1) /\
  (exists w2,
     create_database w = (Ok "sqlite:///sessions.db"%string, w2) /\
     log w2 = log w1 ++ [Ev_create_engine "sqlite:///sessions.db"; Ev_create_all]) /\
  fst (catalog_workflow rs N w) = Ok tt.
Proof.
  intros Hraise. split; [|split].
  - unfold remove_stale. rewrite try_except_pass_ok, Hraise. reflexivity.
  - eexists. split; [apply create_database_run|]. cbn [log].
    unfold os_remove in Hraise.
    destruct (sessions_db w); [destruct (remove_fault w)|];
      inversion Hraise; subst; cbn [log emit]; now rewrite <- app_assoc.
  - rewrite catalog_workflow_run. reflexivity.
Qed.

(** C6 as stated fails: when the stale file cannot be removed (here the
    removal raises EACCES), the error is swallowed, the schema creation keeps
    the old tables, and the old rows sit next to the new ones. *)
Lemma stale_rows_survive_failed_removal :
  let w := initial_world (Some stale_database) (Some (OSError EACCES)) in
  let w' := snd (catalog_workflow sample_stream 1 w) in
  fst (catalog_workflow sample_stream 1 w) = Ok tt /\
  map Object.id (object_table (tables w')) = [1; 2] /\
  map Distance.id (distance_table (tables w')) = [1; 2] /\
  sessions_db w' <> Some (insert_all (drawn sample_stream (random_pos w) 1) empty_database).
Proof.
  vm_compute. repeat split. intros H. discriminate H.
Qed.

(** C5 as stated fails: on a store file that a second run could not remove
    (here the removal raises EPERM), the rows of the first run are still
    there.  After a first run with two stars and a second with one, the value
    1, which the second run never used, is found, and the value 0, which it
    used once, matches two rows. *)
Lemma kept_file_breaks_filter :
  let w1 := snd (catalog_workflow sample_stream 2 (initial_world None None)) in
  let w2 := snd (catalog_workflow sample_stream 1
                   (set_remove_fault (Some (OSError EPERM)) w1)) in
  map Distance.object_id (distance_table (tables w2)) = [0; 1; 0] /\
  (exists d, fst (query_distance_filter_first 1 w2) = Ok (Some d) /\ Distance.id d = 2) /\
  (exists d1 d2, fst (query_distance_filter 0 w2) = Ok [d1; d2] /\
                 Distance.id d1 = 1 /\ Distance.id d2 = 3).
Proof.
  vm_compute. split; [reflexivity|]. split.
  - eexists. split; reflexivity.
  - do 2 eexists. repeat split; reflexivity.
Qed.

Lemma object_scan_contiguous_witness :
  removable (initial_world (Some stale_database) None) /\
  exists rows w',
    (catalog_workflow sample_stream 3 ;; query_object_all)
      (initial_world (Some stale_database) None) = (Ok rows, w') /\
    List.length rows = 3%nat /\
    map Object.id rows = [1; 2; 3] /\
    (catalog_workflow sample_stream 3 ;; query_object_first)
      (initial_world (Some stale_database) None) = (Ok (hd_error rows), w') /\
    option_map Object.id (hd_error rows) = Some 1.
Proof.
  assert (H : removable (initial_world (Some stale_database) None))
    by (right; reflexivity).
  split; [exact H|].
  exact (object_scan_contiguous sample_stream 3
           (initial_world (Some stale_database) None) H).
Defined.

Lemma filter_first_one_or_none_witness :
  removable (initial_world None None) /\
  sqlite_integer 2 /\ sqlite_integer 3 /\
  (exists d, Distance.object_id d = 2 /\
     query_distance_filter 2
       (snd (catalog_workflow sample_stream 3 (initial_world None None)))
     = (Ok [d], snd (catalog_workflow sample_stream 3 (initial_world None None))) /\
     query_distance_filter_first 2
       (snd (catalog_workflow sample_stream 3 (initial_world None None)))
     = (Ok (Some d), snd (catalog_workflow sample_stream 3 (initial_world None None)))) /\
  (query_distance_filter 3
     (snd (catalog_workflow sample_stream 3 (initial_world None None)))
   = (Ok [], snd (catalog_workflow sample_stream 3 (initial_world None None))) /\
   query_distance_filter_first 3
     (snd (catalog_workflow sample_stream 3 (initial_world None None)))
   = (Ok None, snd (catalog_workflow sample_stream 3 (initial_world None None)))).
Proof.
  assert (H : removable (initial_world None None)) by (left; reflexivity).
  assert (H2 : sqlite_integer 2) by (unfold sqlite_integer; lia).
  assert (H3 : sqlite_integer 3) by (unfold sqlite_integer; lia).
  split; [exact H|]. split; [exact H2|]. split; [exact H3|]. split.
  - exact (filter_first_one_or_none sample_stream 3 (initial_world None None) 2 H H2).
  - exact (filter_first_one_or_none sample_stream 3 (initial_world None None) 3 H H3).
Defined.

Lemma fresh_start_when_removable_witness :
  removable (initial_world (Some stale_database) None) /\
  exists w',
    catalog_workflow sample_stream 2 (initial_world (Some stale_database) None)
      = (Ok tt, w') /\
    sessions_db w' = Some (insert_all (drawn sample_stream 0 2) empty_database) /\
    List.length (object_table (tables w')) = 2%nat /\
    List.length (distance_table (tables w')) = 2%nat /\
    log w' = [Ev_remove; Ev_create_engine "sqlite:///sessions.db"; Ev_create_all]
               ++ add_commit_events (drawn sample_stream 0 2).
Proof.
  assert (H : removable (initial_world (Some stale_database) None))
    by (right; reflexivity).
  split; [exact H|].
  exact (fresh_start_when_removable sample_stream 2
           (initial_world (Some stale_database) None) H).
Defined.

Lemma removal_failure_suppressed_witness :
  os_remove (initial_world (Some stale_database) (Some (OSError EACCES)))
    = (Raise (OSError EACCES),
       emit Ev_remove (initial_world (Some stale_database) (Some (OSError EACCES)))) /\
  remove_stale (initial_world (Some stale_database) (Some (OSError EACCES)))
    = (Ok tt, emit Ev_remove (initial_world (Some stale_database) (Some (OSError EACCES)))) /\
  fst (catalog_workflow sample_stream 100
         (initial_world (Some stale_database) (Some (OSError EACCES)))) = Ok tt.
Proof.
  assert (H : os_remove (initial_world (Some stale_database) (Some (OSError EACCES)))
              = (Raise (OSError EACCES),
                 emit Ev_remove
                   (initial_world (Some stale_database) (Some (OSError EACCES)))))
    by reflexivity.
  split; [exact H|].
  destruct (removal_failure_suppressed sample_stream 100 _ _ _ H) as [H1 [_ H3]].
  split; [exact H1|exact H3].
Defined.

(** ** The estimator *)

Section Estimator.

Import StellarPopulation.

Variable normal_stream : nat -> Q.
Variable clock : nat -> Q.

Lemma seq_offset (n : nat) : forall a : nat, seq a n = map (Nat.add a) (seq 0 n).
Proof.
  induction n as [|n IH]; intros a; [reflexivity|].
  cbn [seq map]. rewrite Nat.add_0_r. f_equal.
  rewrite (IH (S a)), (IH 1%nat), map_map. apply map_ext. intros k. lia.
Qed.

Lemma generate_run (n : nat) (sigma : Q) (r : Runtime) :
  generate normal_stream n sigma r
  = (Ok tt,
     {| self := {| distance := distance (self r);
                   N := Some n;
                   rms_error := Some sigma;
                   d_obs := Some (observations normal_stream (distance (self r)) sigma (randn_pos r) n);
                   id := Some (map str (seq 0 n)) |};
        randn_pos := (randn_pos r + n)%nat;
        clock_pos := clock_pos r;
        calls := calls r ++ [Call_randn n] |}).
Proof.
  destruct r as [p rp cp cs]. unfold generate.
  repeat run_bind.
  cbv [set_id modify set_self self randn_pos clock_pos calls distance N rms_error d_obs id].
  unfold observations. rewrite (seq_offset n rp), !map_map. reflexivity.
Qed.

Lemma estimate_run (a : list Q) (r : Runtime) :
  d_obs (self r) = Some a ->
  estimate_mean_distance clock r
  = (Ok (np_mean a, ((clock (S (clock_pos r)) - clock (clock_pos r)) * 1e3)%Q),
     {| self := self r;
        randn_pos := randn_pos r;
        clock_pos := S (S (clock_pos r));
        calls := calls r ++ [Call_time (clock (clock_pos r)); Call_mean;
                             Call_time (clock (S (clock_pos r)))] |}).
Proof.
  intros Ha. destruct r as [p rp cp cs]. cbn [self] in Ha.
  unfold estimate_mean_distance.
  run_bind.
  erewrite bind_ok; [|unfold getattr; cbn [self]; rewrite Ha; reflexivity].
  run_bind.
  run_bind.
  cbn [ret self randn_pos clock_pos calls]. rewrite <- !app_assoc. reflexivity.
Qed.

Lemma estimate_unset (r : Runtime) :
  d_obs (self r) = None ->
  estimate_mean_distance clock r
  = (Raise (AttributeError "d_obs"),
     {| self := self r;
        randn_pos := randn_pos r;
        clock_pos := S (clock_pos r);
        calls := calls r ++ [Call_time (clock (clock_pos r))] |}).
Proof.
  intros Ha. destruct r as [p rp cp cs]. cbn [self] in Ha.
  unfold estimate_mean_distance.
  run_bind.
  erewrite bind_raise; [reflexivity|].
  unfold getattr. cbn [self]. rewrite Ha. reflexivity.
Qed.

Lemma fold_sum_total (a : list Q) : forall acc : Q,
  (fold_left Qplus a acc == acc + total a)%Q.
Proof.
  induction a as [|x a IH]; intros acc; cbn [fold_left total].
  - ring.
  - rewrite IH. ring.
Qed.

Lemma np_mean_arithmetic (a : list Q) :
  match np_mean a with
  | Some m => (m == arithmetic_mean a)%Q
  | None => a = []
  end.
Proof.
  destruct a as [|x a]; [reflexivity|].
  unfold np_mean, arithmetic_mean, np_sum.
  rewrite fold_sum_total. apply Qdiv_comp; [ring|reflexivity].
Qed.

Lemma observations_length mu sigma pos n :
  List.length (observations normal_stream mu sigma pos n) = n.
Proof. unfold observations. now rewrite length_map, length_seq. Qed.

End Estimator.

Lemma rint_close (x : Q) : (Qabs (inject_Z (rint x) - x) <= 1 # 2)%Q.
Proof.
  pose proof (Qfloor_le x) as Hlo. pose proof (Qlt_floor x) as Hhi.
  rewrite inject_Z_plus in Hhi. change (inject_Z 1) with 1%Q in Hhi. unfold rint.
  destruct (Qcompare_spec (x - inject_Z (Qfloor x)) (1 # 2)) as [He|Hl|Hg];
    [destruct (Z.even (Qfloor x))| |];
    rewrite ?inject_Z_plus; change (inject_Z 1) with 1%Q;
    apply Qabs_Qle_condition; split; lra.
Qed.

Lemma np_round_one_decimal (x : Q) :
  np_round x 1 = (inject_Z (rint (x * 10)) / 10)%Q /\
  (Qabs (np_round x 1 - x) <= 1 # 20)%Q.
Proof.
  split; [reflexivity|].
  change (np_round x 1) with (inject_Z (rint (x * 10)) / 10)%Q.
  pose proof (rint_close (x * 10)) as H.
  apply Qabs_Qle_condition in H. apply Qabs_Qle_condition. destruct H as [H1 H2].
  setoid_replace (inject_Z (rint (x * 10)) / 10 - x)%Q
    with ((inject_Z (rint (x * 10)) - x * 10) * (1 # 10))%Q by field.
  split; lra.
Qed.

Lemma estimate_keeps_self (clock : nat -> Q) (r : StellarPopulation.Runtime) :
  StellarPopulation.self (snd (StellarPopulation.estimate_mean_distance clock r))
  = StellarPopulation.self r.
Proof.
  destruct (StellarPopulation.d_obs (StellarPopulation.self r)) as [a|] eqn:Ha.
  - rewrite (estimate_run clock a r Ha). reflexivity.
  - rewrite (estimate_unset clock r Ha). reflexivity.
Qed.

Lemma estimate_reads_d_obs (clock : nat -> Q) (r : StellarPopulation.Runtime) :
  estimate_of (fst (StellarPopulation.estimate_mean_distance clock r))
  = match StellarPopulation.d_obs (StellarPopulation.self r) with
    | Some a => Ok (np_mean a)
    | None => Raise (AttributeError "d_obs")
    end.
Proof.
  destruct (StellarPopulation.d_obs (StellarPopulation.self r)) as [a|] eqn:Ha.
  - rewrite (estimate_run clock a r Ha). reflexivity.
  - rewrite (estimate_unset clock r Ha). reflexivity.
Qed.

Lemma after_calls_self (clock : nat -> Q) (k : nat) : forall r,
  StellarPopulation.self (after_calls clock k r) = StellarPopulation.self r.
Proof.
  induction k as [|k IH]; intros r; [reflexivity|].
  cbn [after_calls]. rewrite IH. apply estimate_keeps_self.
Qed.

(** ** Claims about the estimator *)

(** C4.  On any population, [generate] with count [N] and fractional error
    [sigma] stores exactly [N] observations, the [k]-th being
    [mu + sigma * mu * z_k] for the true distance [mu] and the [k]-th normal
    sample drawn, and [estimate_mean_distance] then returns their arithmetic
    mean as its estimate (NumPy's [nan], here [None], only for [N = 0]). *)
Theorem generate_then_estimate
  (normal_stream clock : nat -> Q) (n : nat) (sigma : Q) (r : StellarPopulation.Runtime) :
  let mu := StellarPopulation.distance (StellarPopulation.self r) in
  let z := fun k => normal_stream (StellarPopulation.randn_pos r + k)%nat in
  exists (obs : list Q) (est : option Q) (time : Q) (r' : StellarPopulation.Runtime),
    (StellarPopulation.generate normal_stream n sigma ;;
     StellarPopulation.estimate_mean_distance clock) r = (Ok (est, time), r') /\
    StellarPopulation.d_obs (StellarPopulation.self r') = Some obs /\
    List.length obs = n /\
    (forall k, nth_error obs k
               = if (k <? n)%nat then Some (mu + sigma * mu * z k)%Q else None) /\
    match est with
    | Some m => (m == arithmetic_mean obs)%Q
    | None => n = 0%nat
    end.
Proof.
  intros mu z.
  exists (observations normal_stream mu sigma (StellarPopulation.randn_pos r) n).
  exists (np_mean (observations normal_stream mu sigma (StellarPopulation.randn_pos r) n)).
  do 2 eexists.
  erewrite bind_ok by apply generate_run.
  erewrite estimate_run by reflexivity.
  split; [reflexivity|]. split; [reflexivity|].
  split; [apply observations_length|]. split.
  - intros k. unfold observations. rewrite nth_error_map, nth_error_seq.
    destruct (k <? n)%nat; reflexivity.
  - pose proof (np_mean_arithmetic
                  (observations normal_stream mu sigma (StellarPopulation.randn_pos r) n)) as H.
    destruct (np_mean _); [exact H|].
    apply (f_equal (@List.length Q)) in H. now rewrite observations_length in H.
Qed.

(** C8.  The time [estimate_mean_distance] returns is the difference of the
    two clock readings taken immediately before and immediately after the
    call of [np.mean], times 1000 (seconds to milliseconds); the sampling of
    [generate] comes before the first reading.  The last cell prints that time
    rounded to one decimal: a multiple of 1/10 within 1/20 of it. *)
Theorem elapsed_time_of_mean
  (normal_stream clock : nat -> Q) (n : nat) (sigma : Q) (r : StellarPopulation.Runtime) :
  let t0 := clock (StellarPopulation.clock_pos r) in
  let t1 := clock (S (StellarPopulation.clock_pos r)) in
  let time := ((t1 - t0) * inject_Z 1000)%Q in
  exists (est : option Q) (r' : StellarPopulation.Runtime),
    (StellarPopulation.generate normal_stream n sigma ;;
     StellarPopulation.estimate_mean_distance clock) r = (Ok (est, time), r') /\
    StellarPopulation.calls r'
      = StellarPopulation.calls r
          ++ [Call_randn n; Call_time t0; Call_mean; Call_time t1] /\
    (StellarPopulation.generate normal_stream n sigma ;;
     StellarPopulation.report clock) r
      = (Ok (est, (inject_Z (rint (time * 10)) / 10)%Q), r') /\
    (Qabs (inject_Z (rint (time * 10)) / 10 - time) <= 1 # 20)%Q.
Proof.
  intros t0 t1 time. do 2 eexists.
  erewrite !bind_ok by apply generate_run.
  unfold StellarPopulation.report.
  erewrite bind_ok by (apply estimate_run; reflexivity).
  erewrite estimate_run by reflexivity.
  cbn [StellarPopulation.calls StellarPopulation.clock_pos fst snd ret].
  rewrite <- app_assoc.
  split; [reflexivity|]. split; [reflexivity|]. split; [reflexivity|].
  apply (np_round_one_decimal time).
Qed.

(** C9.  [estimate_mean_distance] leaves the instance as it found it (every
    attribute: distance, N, rms_error, d_obs, id), whether it returns or
    raises, so after any number of calls the next call yields the same
    estimate as the first. *)
Theorem estimate_preserves_population
  (clock : nat -> Q) (k : nat) (r : StellarPopulation.Runtime) :
  StellarPopulation.self (snd (StellarPopulation.estimate_mean_distance clock r))
    = StellarPopulation.self r /\
  StellarPopulation.self (after_calls clock k r) = StellarPopulation.self r /\
  estimate_of (fst (StellarPopulation.estimate_mean_distance clock (after_calls clock k r)))
    = estimate_of (fst (StellarPopulation.estimate_mean_distance clock r)).
Proof.
  split; [apply estimate_keeps_self|]. split; [apply after_calls_self|].
  now rewrite !estimate_reads_d_obs, after_calls_self.
Qed.

(** ** The notebook's own run, replayed *)

(** With clock readings 5.5 ms apart the last cell prints 5.5, as the
    notebook's recorded output does. *)
Example report_prints_one_decimal :
  fst ((StellarPopulation.generate sample_normal 5 0.1%Q ;;
        StellarPopulation.report sample_clock)
         (start_runtime (StellarPopulation.__init__ 3.0%Q)))
  = Ok (np_mean (observations sample_normal 3.0%Q 0.1%Q 0 5), np_round 5.5%Q 1).
Proof. vm_compute. reflexivity. Qed.

(** Calling the estimator on a population that was never generated raises. *)
Example estimate_before_generate :
  fst (StellarPopulation.estimate_mean_distance sample_clock
         (start_runtime (StellarPopulation.__init__ 3.0%Q)))
  = Raise (AttributeError "d_obs").
Proof. reflexivity. Qed.

(** The query of the notebook's last catalog cell, [object_id == 80], finds
    the 81st distance row. *)
Example notebook_filter_80 :
  option_map Distance.id
    (match query_distance_filter_first 80
             (snd (notebook sample_stream (initial_world None None))) with
     | (Ok found, _) => found
     | (Raise _, _) => None
     end) = Some 81.
Proof. vm_compute. reflexivity. Qed.

(** * Further properties of the catalog workflow *)

(** ** The tables in closed form *)

Lemma insert_objects_explicit rs (n : nat) : forall (pos : nat) (db : Database),
  insert_all (drawn_objects rs pos n) db
  = {| object_table :=
         object_table db
           ++ map (object_row rs (next_id (map Object.id (object_table db))) pos) (seq 0 n);
       distance_table := distance_table db |}.
Proof.
  induction n as [|n IH]; intros pos [os ds].
  - cbn. now rewrite app_nil_r.
  - cbn [drawn_objects]. unfold insert_all in *. cbn [fold_left].
    rewrite IH. cbn [insert_row object_table distance_table]. f_equal.
    rewrite map_app. cbn [map Object.id]. rewrite next_id_snoc, <- app_assoc.
    f_equal. cbn [seq map app]. f_equal.
    + unfold object_row. f_equal; [lia| |]; do 3 f_equal; lia.
    + rewrite <- seq_shift, map_map. apply map_ext. intros k.
      unfold object_row. f_equal; [lia| |]; do 3 f_equal; lia.
Qed.

Lemma insert_distances_explicit rs (n : nat) : forall (pos : nat) (db : Database),
  insert_all (drawn_distances rs pos (range n)) db
  = {| object_table := object_table db;
       distance_table :=
         distance_table db
           ++ map (distance_row rs (next_id (map Distance.id (distance_table db))) pos)
                  (seq 0 n) |}.
Proof.
  unfold range.
  assert (G : forall (a pos : nat) (db : Database),
    insert_all (drawn_distances rs pos (map Z.of_nat (seq a n))) db
    = {| object_table := object_table db;
         distance_table :=
           distance_table db
             ++ map (fun k =>
                       {| Distance.id :=
                            next_id (map Distance.id (distance_table db)) + Z.of_nat k;
                          Distance.object_id := Z.of_nat (a + k);
                          Distance.distance := (40 + (60 - 40) * rs (pos + k)%nat)%Q |})
                    (seq 0 n) |}).
  { induction n as [|n IH]; intros a pos [os ds].
    - cbn. now rewrite app_nil_r.
    - cbn [seq map drawn_distances]. unfold insert_all in *. cbn [fold_left].
      rewrite IH. cbn [insert_row object_table distance_table]. f_equal.
      rewrite map_app. cbn [map Distance.id]. rewrite next_id_snoc, <- app_assoc.
      f_equal. cbn [app]. f_equal.
      + f_equal; [lia|f_equal; lia|do 3 f_equal; lia].
      + rewrite <- seq_shift, map_map. apply map_ext. intros k.
        f_equal; [lia|f_equal; lia|do 3 f_equal; lia]. }
  intros pos db. rewrite (G 0%nat pos db). reflexivity.
Qed.

(** The store after one run, whatever tables the session started from. *)
Lemma drawn_explicit rs (pos N : nat) (db : Database) :
  insert_all (drawn rs pos N) db
  = {| object_table :=
         object_table db
           ++ map (object_row rs (next_id (map Object.id (object_table db))) pos) (seq 0 N);
       distance_table :=
         distance_table db
           ++ map (distance_row rs (next_id (map Distance.id (distance_table db)))
                                (pos + 2 * N))
                  (seq 0 N) |}.
Proof.
  unfold drawn. rewrite insert_all_app, insert_objects_explicit, insert_distances_explicit.
  reflexivity.
Qed.

(** The world a run ends in, when it started from an absent or removable file. *)
Lemma fresh_run_world rs (N : nat) (w : World) :
  removable w ->
  snd (catalog_workflow rs N w)
  = {| sessions_db :=
         Some {| object_table := map (object_row rs 1 (random_pos w)) (seq 0 N);
                 distance_table :=
                   map (distance_row rs 1 (random_pos w + 2 * N)) (seq 0 N) |};
       remove_fault := remove_fault w;
       random_pos := (random_pos w + 3 * N)%nat;
       session_new := [];
       log := log w ++ setup_events ++ add_commit_events (drawn rs (random_pos w) N) |}.
Proof.
  intros Hrem. rewrite catalog_workflow_run. cbn [snd].
  rewrite removable_setup by exact Hrem. rewrite drawn_explicit. reflexivity.
Qed.

(** ** Keys *)

Lemma fold_max_bounds (rest : list Z) : forall x : Z,
  x <= fold_left Z.max rest x /\ Forall (fun y => y <= fold_left Z.max rest x) rest.
Proof.
  induction rest as [|y rest IH]; intros x; cbn [fold_left].
  - split; [lia|constructor].
  - destruct (IH (Z.max x y)) as [H1 H2]. split; [lia|].
    constructor; [lia|exact H2].
Qed.

Lemma next_id_above (ids : list Z) : Forall (fun x => x < next_id ids) ids.
Proof.
  destruct ids as [|x rest]; [constructor|].
  cbn [next_id]. destruct (fold_max_bounds rest x) as [H1 H2].
  constructor; [lia|].
  eapply Forall_impl; [|exact H2]. intros y Hy. cbv beta in *. lia.
Qed.

Lemma sorted_snoc (l : list Z) (y : Z) :
  StronglySorted Z.lt l -> Forall (fun x => x < y) l -> StronglySorted Z.lt (l ++ [y]).
Proof.
  induction 1 as [|a l Hs IH Ha]; intros Hlt; cbn [app].
  - constructor; constructor.
  - inversion Hlt as [|? ? Hay Hl]; subst.
    constructor; [apply IH; exact Hl|].
    apply Forall_app. split; [exact Ha|constructor; [exact Hay|constructor]].
Qed.

Lemma sorted_fresh_keys (l : list Z) (n : nat) :
  StronglySorted Z.lt l ->
  StronglySorted Z.lt (l ++ map (fun k => next_id l + Z.of_nat k) (seq 0 n)).
Proof.
  intros Hs. induction n as [|n IH]; [now rewrite app_nil_r|].
  rewrite seq_S, map_app, app_assoc. cbn [map Nat.add]. apply sorted_snoc; [exact IH|].
  apply Forall_app. split.
  - eapply Forall_impl; [|apply next_id_above]. intros x Hx. cbv beta in *. lia.
  - apply Forall_forall. intros x Hx. apply in_map_iff in Hx.
    destruct Hx as [k [<- Hk]]. apply in_seq in Hk. lia.
Qed.

Lemma sorted_NoDup (l : list Z) : StronglySorted Z.lt l -> NoDup l.
Proof.
  induction 1 as [|a l Hs IH Ha]; constructor; [|exact IH].
  intros Hin. rewrite Forall_forall in Ha. specialize (Ha a Hin). lia.
Qed.

(** X2.  After a run from an absent or removable store file the store holds
    exactly this: object [k] (k = 0..N-1) has key [k+1], [ra] drawn from the
    [2k]-th and [dec] from the [2k+1]-th random value of the run, and distance
    [k] has key [k+1], [object_id = k] and its value drawn from the
    [(2N+k)]-th random value. *)
Theorem fresh_catalog_contents (rs : nat -> Q) (N : nat) (w : World) :
  removable w ->
  sessions_db (snd (catalog_workflow rs N w))
  = Some {| object_table := map (object_row rs 1 (random_pos w)) (seq 0 N);
            distance_table := map (distance_row rs 1 (random_pos w + 2 * N)) (seq 0 N) |}.
Proof.
  intros Hrem. rewrite fresh_run_world by exact Hrem. reflexivity.
Qed.

Lemma fresh_catalog_contents_witness :
  removable (initial_world (Some stale_database) None) /\
  sessions_db (snd (catalog_workflow sample_stream 2 (initial_world (Some stale_database) None)))
  = Some {| object_table := [object_row sample_stream 1 0 0; object_row sample_stream 1 0 1];
            distance_table :=
              [distance_row sample_stream 1 4 0; distance_row sample_stream 1 4 1] |}.
Proof.
  assert (H : removable (initial_world (Some stale_database) None))
    by (right; reflexivity).
  split; [exact H|].
  exact (fresh_catalog_contents sample_stream 2 (initial_world (Some stale_database) None) H).
Defined.

(** X3.  The workflow keeps the primary keys of both tables strictly
    increasing in scan order, hence unique, whatever rows the store held
    before, provided their keys were increasing. *)
Theorem keys_stay_increasing (rs : nat -> Q) (N : nat) (w : World) :
  keys_increasing (tables w) ->
  keys_increasing (tables (snd (catalog_workflow rs N w))) /\
  NoDup (map Object.id (object_table (tables (snd (catalog_workflow rs N w))))) /\
  NoDup (map Distance.id (distance_table (tables (snd (catalog_workflow rs N w))))).
Proof.
  intros Hw.
  assert (Hs : keys_increasing (database_after_setup w)).
  { unfold database_after_setup, tables in *.
    destruct (sessions_db w) as [old|]; [destruct (remove_fault w)|];
      try exact Hw; split; constructor. }
  assert (Hk : keys_increasing (tables (snd (catalog_workflow rs N w)))).
  { rewrite catalog_workflow_run. cbn [snd tables sessions_db].
    rewrite drawn_explicit. destruct Hs as [Ho Hd].
    split; cbn [object_table distance_table]; rewrite map_app, map_map;
      cbn [object_row distance_row Object.id Distance.id];
      apply sorted_fresh_keys; assumption. }
  split; [exact Hk|]. destruct Hk as [Ho Hd].
  split; apply sorted_NoDup; assumption.
Qed.

Lemma keys_stay_increasing_witness :
  keys_increasing
    (tables (initial_world (Some stale_database) (Some (OSError EACCES)))) /\
  map Object.id
    (object_table
       (tables (snd (catalog_workflow sample_stream 2
                       (initial_world (Some stale_database) (Some (OSError EACCES)))))))
  = [1; 2; 3] /\
  NoDup
    (map Object.id
       (object_table
          (tables (snd (catalog_workflow sample_stream 2
                          (initial_world (Some stale_database) (Some (OSError EACCES)))))))).
Proof.
  assert (H : keys_increasing
                (tables (initial_world (Some stale_database) (Some (OSError EACCES))))).
  { split; cbn; repeat constructor. }
  split; [exact H|]. split; [reflexivity|].
  exact (proj1 (proj2 (keys_stay_increasing sample_stream 2
                         (initial_world (Some stale_database) (Some (OSError EACCES))) H))).
Defined.

(** ** Queries on the stored catalog *)

Lemma query_distances_run (w : World) (db : Database) :
  sessions_db w = Some db -> session_new w = [] ->
  query_distances w = (Ok (map Distance.distance (distance_table db)), w).
Proof.
  intros Hdb Hnew. unfold query_distances, bind, flush. now rewrite Hnew, Hdb.
Qed.

Lemma filter_distance_rows rs (first : Z) (pos N : nat) (v : Z) :
  filter (fun d => Z.eqb (Distance.object_id d) v)
         (map (distance_row rs first pos) (seq 0 N))
  = if (0 <=? v) && (v <? Z.of_nat N)
    then [distance_row rs first pos (Z.to_nat v)]
    else [].
Proof.
  pose proof (filter_consecutive_keys v N 0 (map (distance_row rs first pos) (seq 0 N))) as H.
  rewrite map_map in H. specialize (H eq_refl). cbn [Z.of_nat Nat.add] in H.
  destruct ((0 <=? v) && (v <? Z.of_nat N)); [|exact H].
  destruct H as [d [Hf Hv]]. rewrite Hf. f_equal.
  assert (Hin : In d (filter (fun d => Z.eqb (Distance.object_id d) v)
                             (map (distance_row rs first pos) (seq 0 N))))
    by (rewrite Hf; left; reflexivity).
  apply filter_In in Hin. destruct Hin as [Hin _].
  apply in_map_iff in Hin. destruct Hin as [k [<- _]].
  cbn [distance_row Distance.object_id] in Hv. subst v. now rewrite Nat2Z.id.
Qed.

Lemma next_id_consecutive (n : nat) :
  next_id (map (fun k => next_id [] + Z.of_nat k) (seq 0 n)) = 1 + Z.of_nat n.
Proof.
  induction n as [|n IH]; [reflexivity|].
  rewrite seq_S, map_app. cbn [map Nat.add].
  replace (next_id [] + Z.of_nat n) with
    (next_id (map (fun k => next_id [] + Z.of_nat k) (seq 0 n)))
    by (rewrite IH; reflexivity).
  rewrite next_id_snoc, IH. lia.
Qed.

(** X5.  After a run from an absent or removable store file every distance
    row has [id = object_id + 1]; a distance row references a stored object
    exactly when its [object_id] is not 0, and an object is referenced by a
    distance row exactly when its key is not [N]. *)
Theorem only_first_reference_dangles (rs : nat -> Q) (N : nat) (w : World) :
  removable w ->
  let db := tables (snd (catalog_workflow rs N w)) in
  (forall d, In d (distance_table db) ->
     Distance.id d = Distance.object_id d + 1 /\
     ((exists o, In o (object_table db) /\ Object.id o = Distance.object_id d)
      <-> Distance.object_id d <> 0)) /\
  (forall o, In o (object_table db) ->
     ((exists d, In d (distance_table db) /\ Distance.object_id d = Object.id o)
      <-> Object.id o <> Z.of_nat N)).
Proof.
  intros Hrem db. subst db. rewrite fresh_run_world by exact Hrem.
  cbn [tables sessions_db object_table distance_table]. split.
  - intros d Hd. apply in_map_iff in Hd. destruct Hd as [k [<- Hk]].
    apply in_seq in Hk. cbn [distance_row Distance.id Distance.object_id].
    split; [lia|]. split.
    + intros [o [Ho Hid]]. apply in_map_iff in Ho. destruct Ho as [j [<- _]].
      cbn [object_row Object.id] in Hid. lia.
    + intros Hne. exists (object_row rs 1 (random_pos w) (k - 1)). split.
      * apply in_map. apply in_seq. lia.
      * cbn [object_row Object.id]. lia.
  - intros o Ho. apply in_map_iff in Ho. destruct Ho as [j [<- Hj]].
    apply in_seq in Hj. cbn [object_row Object.id]. split.
    + intros [d [Hd Hid]]. apply in_map_iff in Hd. destruct Hd as [k [<- Hk]].
      apply in_seq in Hk. cbn [distance_row Distance.object_id] in Hid. lia.
    + intros Hne. exists (distance_row rs 1 (random_pos w + 2 * N) (S j)). split.
      * apply in_map. apply in_seq. lia.
      * cbn [distance_row Distance.object_id]. lia.
Qed.

Lemma only_first_reference_dangles_witness :
  removable (initial_world None None) /\
  (forall d,
     In d (distance_table
             (tables (snd (catalog_workflow sample_stream 3 (initial_world None None))))) ->
     Distance.id d = Distance.object_id d + 1).
Proof.
  assert (H : removable (initial_world None None)) by (left; reflexivity).
  split; [exact H|]. intros d Hd.
  exact (proj1 (proj1 (only_first_reference_dangles sample_stream 3
                         (initial_world None None) H) d Hd)).
Defined.

(** X6.  When [random.random()] returns values in [0, 1), every stored object
    has [ra] between 9 and 11 and [dec] between -33 and -30 (the bounds of the
    second [uniform] call are given in decreasing order), and every stored
    distance lies between 40 and 60, end points included. *)
Theorem stored_values_in_range (rs : nat -> Q) (N : nat) (w : World) :
  unit_interval rs -> removable w ->
  let db := tables (snd (catalog_workflow rs N w)) in
  Forall (fun o => (9 <= Object.ra o)%Q /\ (Object.ra o <= 11)%Q /\
                   (-33 <= Object.dec o)%Q /\ (Object.dec o <= -30)%Q)
         (object_table db) /\
  Forall (fun d => (40 <= Distance.distance d)%Q /\ (Distance.distance d <= 60)%Q)
         (distance_table db).
Proof.
  intros Hrs Hrem db. subst db. rewrite fresh_run_world by exact Hrem.
  cbn [tables sessions_db object_table distance_table].
  split; apply Forall_forall; intros x Hx; apply in_map_iff in Hx;
    destruct Hx as [k [<- _]].
  - cbn [object_row Object.ra Object.dec].
    destruct (Hrs (random_pos w + 2 * k)%nat) as [Ha Hb].
    destruct (Hrs (S (random_pos w + 2 * k))) as [Hc Hd].
    repeat split; lra.
  - cbn [distance_row Distance.distance].
    destruct (Hrs (random_pos w + 2 * N + k)%nat) as [Ha Hb].
    split; lra.
Qed.

Lemma stored_values_in_range_witness :
  unit_interval half_stream /\ removable (initial_world None None) /\
  Forall (fun d => (40 <= Distance.distance d)%Q /\ (Distance.distance d <= 60)%Q)
         (distance_table
            (tables (snd (catalog_workflow half_stream 3 (initial_world None None))))).
Proof.
  assert (Hs : unit_interval half_stream).
  { intros k. unfold half_stream. split; [discriminate|reflexivity]. }
  assert (H : removable (initial_world None None)) by (left; reflexivity).
  split; [exact Hs|]. split; [exact H|].
  exact (proj2 (stored_values_in_range half_stream 3 (initial_world None None) Hs H)).
Defined.

(** X7.  After a run from an absent or removable store file, the cell that
    collects all distances returns [N] values in insertion order, the [k]-th
    being [40 + 20 * u] for the [(2N+k)]-th random value [u] of the run, and
    leaves the world as it was. *)
Theorem distances_array (rs : nat -> Q) (N : nat) (w : World) :
  removable w ->
  let w' := snd (catalog_workflow rs N w) in
  query_distances w'
  = (Ok (map (fun k => 40 + (60 - 40) * rs (random_pos w + 2 * N + k)%nat)%Q (seq 0 N)), w').
Proof.
  intros Hrem w'. subst w'. rewrite fresh_run_world by exact Hrem.
  erewrite query_distances_run by reflexivity.
  cbn [distance_table]. rewrite map_map. reflexivity.
Qed.

Lemma distances_array_witness :
  removable (initial_world None None) /\
  fst (query_distances (snd (catalog_workflow half_stream 3 (initial_world None None))))
  = Ok [ (40 + (60 - 40) * (1 # 2))%Q; (40 + (60 - 40) * (1 # 2))%Q;
         (40 + (60 - 40) * (1 # 2))%Q ].
Proof.
  assert (H : removable (initial_world None None)) by (left; reflexivity).
  split; [exact H|].
  exact (f_equal fst (distances_array half_stream 3 (initial_world None None) H)).
Defined.



(** X9.  After a run from an absent or removable store file, the cell that
    shows the first object returns key 1 with the coordinates drawn from the
    first two random values of the run; with an empty batch the query returns
    [None] and reading [.id] raises [AttributeError]. *)
Theorem first_object_cell_value_or_error (rs : nat -> Q) (N : nat) (w : World) :
  removable w ->
  let w' := snd (catalog_workflow rs N w) in
  first_object_cell w'
  = match N with
    | O => (Raise (AttributeError "id"), w')
    | S _ => (Ok (1, (9.0 + (11.0 - 9.0) * rs (random_pos w))%Q,
                     (-30.0 + (-33.0 - -30.0) * rs (S (random_pos w)))%Q), w')
    end.
Proof.
  intros Hrem w'. subst w'. rewrite fresh_run_world by exact Hrem.
  unfold first_object_cell.
  erewrite bind_ok by (apply query_object_first_run; reflexivity).
  destruct N as [|N]; [reflexivity|].
  cbn [object_table seq map hd_error object_row Object.id Object.ra Object.dec ret].
  rewrite Nat.mul_0_r, Nat.add_0_r. reflexivity.
Qed.

Lemma first_object_cell_value_or_error_witness :
  removable (initial_world None None) /\
  fst (first_object_cell (snd (notebook half_stream (initial_world None None))))
    = Ok (1, (9.0 + (11.0 - 9.0) * (1 # 2))%Q, (-30.0 + (-33.0 - -30.0) * (1 # 2))%Q) /\
  fst (first_object_cell (snd (catalog_workflow half_stream 0 (initial_world None None))))
    = Raise (AttributeError "id").
Proof.
  assert (H : removable (initial_world None None)) by (left; reflexivity).
  split; [exact H|]. split.
  - exact (f_equal fst (first_object_cell_value_or_error half_stream 100
                          (initial_world None None) H)).
  - exact (f_equal fst (first_object_cell_value_or_error half_stream 0
                          (initial_world None None) H)).
Defined.

(** X10.  Running the notebook a second time while the removal of the file
    left by the first run fails doubles the catalog: the object keys run from
    1 to [2N], every counter value is stored twice as [object_id], the filter
    on a used value finds two rows, and the first-match query returns the row
    of the first run. *)
Theorem rerun_on_kept_file_duplicates
  (rs : nat -> Q) (N : nat) (w : World) (e : Exn) (v : Z) :
  removable w ->
  let w1 := snd (catalog_workflow rs N w) in
  let w2 := snd (catalog_workflow rs N (set_remove_fault (Some e) w1)) in
  map Object.id (object_table (tables w2)) = map Z.of_nat (seq 1 (2 * N)) /\
  map Distance.object_id (distance_table (tables w2)) = range N ++ range N /\
  if (0 <=? v) && (v <? Z.of_nat N)
  then query_distance_filter v w2
       = (Ok [distance_row rs 1 (random_pos w + 2 * N) (Z.to_nat v);
              distance_row rs (1 + Z.of_nat N) (random_pos w + 3 * N + 2 * N) (Z.to_nat v)],
          w2) /\
       query_distance_filter_first v w2
       = (Ok (Some (distance_row rs 1 (random_pos w + 2 * N) (Z.to_nat v))), w2)
  else query_distance_filter_first v w2 = (Ok None, w2).
Proof.
  intros Hrem w1 w2. subst w2 w1. rewrite (fresh_run_world rs N w Hrem).
  rewrite catalog_workflow_run.
  cbn [snd set_remove_fault sessions_db remove_fault random_pos session_new log
       database_after_setup tables].
  rewrite drawn_explicit. cbn [object_table distance_table].
  rewrite !map_map. cbn [object_row distance_row Object.id Distance.id].
  change (fun x : nat => 1 + Z.of_nat x) with (fun k : nat => next_id [] + Z.of_nat k).
  rewrite (next_id_consecutive N).
  split; [|split].
  - rewrite map_app, !map_map. cbn [Object.id].
    replace (2 * N)%nat with (N + N)%nat by lia.
    rewrite seq_app, map_app. f_equal.
    + rewrite <- seq_shift, map_map. apply map_ext. intros k.
      cbn [object_row Object.id]. lia.
    + rewrite (seq_offset N (1 + N)), map_map. apply map_ext. intros k.
      cbn [object_row Object.id]. lia.
  - rewrite map_app, !map_map. reflexivity.
  - unfold query_distance_filter_first.
    erewrite !bind_ok by (apply query_distance_filter_run; reflexivity).
    erewrite ?query_distance_filter_run by reflexivity.
    cbn [distance_table]. rewrite filter_app, !filter_distance_rows.
    destruct ((0 <=? v) && (v <? Z.of_nat N)); [split|]; reflexivity.
Qed.

Lemma rerun_on_kept_file_duplicates_witness :
  removable (initial_world None None) /\
  map Object.id
    (object_table
       (tables
          (snd (catalog_workflow sample_stream 2
                  (set_remove_fault (Some (OSError EACCES))
                     (snd (catalog_workflow sample_stream 2 (initial_world None None))))))))
  = [1; 2; 3; 4].
Proof.
  assert (H : removable (initial_world None None)) by (left; reflexivity).
  split; [exact H|].
  exact (proj1 (rerun_on_kept_file_duplicates sample_stream 2 (initial_world None None)
                  (OSError EACCES) 0 H)).
Defined.

(** * Further properties of the estimator *)

Lemma generate_estimate_run
  (zs clock : nat -> Q) (n : nat) (sigma : Q) (r : StellarPopulation.Runtime) :
  (StellarPopulation.generate zs n sigma ;;
   StellarPopulation.estimate_mean_distance clock) r
  = (Ok (np_mean (observations zs (StellarPopulation.distance (StellarPopulation.self r))
                               sigma (StellarPopulation.randn_pos r) n),
         ((clock (S (StellarPopulation.clock_pos r))
           - clock (StellarPopulation.clock_pos r)) * 1e3)%Q),
     snd ((StellarPopulation.generate zs n sigma ;;
           StellarPopulation.estimate_mean_distance clock) r)).
Proof.
  erewrite !bind_ok by apply generate_run.
  erewrite estimate_run by reflexivity. reflexivity.
Qed.

Lemma int_of_str_str (k : nat) : int_of_str (str k) = Some k.
Proof.
  unfold int_of_str, str.
  destruct (Nat.to_uint k) eqn:Hd;
    [rewrite NilZero.usu_nil | rewrite NilZero.usu by discriminate ..];
    cbn [option_map]; f_equal;
    rewrite <- (DecimalNat.Unsigned.of_to k), Hd; reflexivity.
Qed.

Lemma str_NoDup (n : nat) : NoDup (map str (seq 0 n)).
Proof.
  apply NoDup_map_inv with (f := int_of_str). rewrite map_map.
  apply NoDup_map_inv with (f := fun o : option nat => match o with Some k => k | None => O end).
  rewrite map_map. erewrite map_ext; [rewrite map_id; apply seq_NoDup|].
  intros k. now rewrite int_of_str_str.
Qed.

(** X11.  [generate] stores one identifier per observation: the list [id]
    has the length of [d_obs], its [k]-th entry is the decimal string of [k],
    reading an entry back as an integer gives its position, and the
    identifiers are pairwise distinct. *)
Theorem star_ids_parallel
  (zs : nat -> Q) (n : nat) (sigma : Q) (r : StellarPopulation.Runtime) :
  let p := StellarPopulation.self (snd (StellarPopulation.generate zs n sigma r)) in
  exists ids obs,
    StellarPopulation.id p = Some ids /\
    StellarPopulation.d_obs p = Some obs /\
    List.length ids = List.length obs /\
    List.length ids = n /\
    (forall k, nth_error ids k = if (k <? n)%nat then Some (str k) else None) /\
    map int_of_str ids = map Some (seq 0 n) /\
    NoDup ids.
Proof.
  intros p. subst p. rewrite generate_run. cbn [snd StellarPopulation.self
    StellarPopulation.id StellarPopulation.d_obs].
  do 2 eexists. split; [reflexivity|]. split; [reflexivity|].
  rewrite observations_length, length_map, length_seq.
  split; [reflexivity|]. split; [reflexivity|]. split; [|split].
  - intros k. rewrite nth_error_map, nth_error_seq.
    destruct (k <? n)%nat; reflexivity.
  - rewrite map_map. apply map_ext. intros k. apply int_of_str_str.
  - apply str_NoDup.
Qed.

(** X12.  Calling [generate] again replaces the population's data, it does
    not extend it: [N], [rms_error], [d_obs] and [id] are those of the second
    call, the true distance is kept, and the second call's observations use
    the samples that follow the ones the first call consumed. *)
Theorem regenerate_overwrites
  (zs : nat -> Q) (n1 n2 : nat) (s1 s2 : Q) (r : StellarPopulation.Runtime) :
  (StellarPopulation.generate zs n1 s1 ;; StellarPopulation.generate zs n2 s2) r
  = (Ok tt,
     {| StellarPopulation.self :=
          {| StellarPopulation.distance := StellarPopulation.distance (StellarPopulation.self r);
             StellarPopulation.N := Some n2;
             StellarPopulation.rms_error := Some s2;
             StellarPopulation.d_obs :=
               Some (observations zs (StellarPopulation.distance (StellarPopulation.self r))
                                  s2 (StellarPopulation.randn_pos r + n1) n2);
             StellarPopulation.id := Some (map str (seq 0 n2)) |};
        StellarPopulation.randn_pos := (StellarPopulation.randn_pos r + n1 + n2)%nat;
        StellarPopulation.clock_pos := StellarPopulation.clock_pos r;
        StellarPopulation.calls :=
          StellarPopulation.calls r ++ [Call_randn n1; Call_randn n2] |}).
Proof.
  erewrite bind_ok by apply generate_run. rewrite generate_run.
  cbn [StellarPopulation.self StellarPopulation.distance StellarPopulation.randn_pos
       StellarPopulation.clock_pos StellarPopulation.calls].
  rewrite <- app_assoc. reflexivity.
Qed.

(** X13.  With a fractional error equal to zero, [generate] stores [N]
    observations that all equal the true distance, whatever normal samples
    were drawn. *)
Theorem zero_error_observations_exact
  (zs : nat -> Q) (n : nat) (sigma : Q) (r : StellarPopulation.Runtime) :
  (sigma == 0)%Q ->
  exists obs,
    StellarPopulation.d_obs
      (StellarPopulation.self (snd (StellarPopulation.generate zs n sigma r))) = Some obs /\
    List.length obs = n /\
    Forall (fun x => (x == StellarPopulation.distance (StellarPopulation.self r))%Q) obs.
Proof.
  intros Hs. rewrite generate_run.
  cbn [snd StellarPopulation.self StellarPopulation.d_obs].
  eexists. split; [reflexivity|]. split; [apply observations_length|].
  apply Forall_forall. intros x Hx. unfold observations in Hx.
  apply in_map_iff in Hx. destruct Hx as [k [<- _]]. rewrite Hs. ring.
Qed.

Lemma zero_error_observations_exact_witness :
  (0 == 0)%Q /\
  exists obs,
    StellarPopulation.d_obs
      (StellarPopulation.self
         (snd (StellarPopulation.generate sample_normal 4 0
                 (start_runtime (StellarPopulation.__init__ 3.0%Q))))) = Some obs /\
    List.length obs = 4%nat /\
    Forall (fun x => (x == 3.0)%Q) obs.
Proof.
  assert (Hs : (0 == 0)%Q) by reflexivity.
  split; [exact Hs|].
  exact (zero_error_observations_exact sample_normal 4 0
           (start_runtime (StellarPopulation.__init__ 3.0%Q)) Hs).
Defined.

(** X16.  On a population that was only constructed, with any true distance,
    [estimate_mean_distance] raises [AttributeError] for [d_obs] after its
    first clock reading and leaves the instance as constructed; a later
    [generate] makes the estimate succeed, timed between the next two
    readings. *)
Theorem estimate_needs_generate
  (zs clock : nat -> Q) (mu : Q) (n : nat) (sigma : Q) :
  let r0 := start_runtime (StellarPopulation.__init__ mu) in
  let r1 := snd (StellarPopulation.estimate_mean_distance clock r0) in
  fst (StellarPopulation.estimate_mean_distance clock r0) = Raise (AttributeError "d_obs") /\
  StellarPopulation.self r1 = StellarPopulation.__init__ mu /\
  StellarPopulation.calls r1 = [Call_time (clock 0%nat)] /\
  fst ((StellarPopulation.generate zs n sigma ;;
        StellarPopulation.estimate_mean_distance clock) r1)
  = Ok (np_mean (observations zs mu sigma 0 n), ((clock 2%nat - clock 1%nat) * 1e3)%Q).
Proof.
  intros r0 r1. subst r1 r0.
  rewrite (estimate_unset clock (start_runtime (StellarPopulation.__init__ mu)) eq_refl).
  cbn [fst snd StellarPopulation.self StellarPopulation.calls start_runtime app].
  repeat split. rewrite generate_estimate_run. reflexivity.
Qed.

Lemma rint_nonnegative (x : Q) : (0 <= x)%Q -> 0 <= rint x.
Proof.
  intros Hx. pose proof (Qfloor_resp_le 0 x Hx) as Hf.
  change (Qfloor 0) with 0 in Hf. unfold rint.
  destruct (Qcompare (x - inject_Z (Qfloor x)) (1 # 2));
    [destruct (Z.even (Qfloor x))| |]; lia.
Qed.

(** X17.  When the second clock reading is not earlier than the first, the
    elapsed time [estimate_mean_distance] returns is not negative, and
    neither is the rounded value the last cell prints. *)
Theorem elapsed_time_nonnegative
  (clock : nat -> Q) (a : list Q) (r : StellarPopulation.Runtime) :
  StellarPopulation.d_obs (StellarPopulation.self r) = Some a ->
  (clock (StellarPopulation.clock_pos r) <= clock (S (StellarPopulation.clock_pos r)))%Q ->
  exists time shown,
    fst (StellarPopulation.estimate_mean_distance clock r) = Ok (np_mean a, time) /\
    fst (StellarPopulation.report clock r) = Ok (np_mean a, shown) /\
    (0 <= time)%Q /\ (0 <= shown)%Q.
Proof.
  intros Ha Hclock. do 2 eexists.
  unfold StellarPopulation.report.
  erewrite bind_ok by (apply estimate_run; exact Ha).
  rewrite (estimate_run clock a r Ha). cbn [fst snd ret].
  split; [reflexivity|]. split; [reflexivity|].
  assert (Ht : (0 <= (clock (S (StellarPopulation.clock_pos r))
                      - clock (StellarPopulation.clock_pos r)) * 1e3)%Q).
  { change 1e3%Q with (inject_Z 1000). change (inject_Z 1000) with (1000 # 1)%Q.
    set (t0 := clock (StellarPopulation.clock_pos r)) in *.
    set (t1 := clock (S (StellarPopulation.clock_pos r))) in *. lra. }
  split; [exact Ht|].
  unfold np_round. apply Qle_shift_div_l; [reflexivity|].
  rewrite Qmult_0_l. change 0%Q with (inject_Z 0). rewrite <- Zle_Qle.
  apply rint_nonnegative.
  change (inject_Z (10 ^ Z.of_nat 1)) with (10 # 1)%Q. lra.
Qed.

Lemma elapsed_time_nonnegative_witness :
  StellarPopulation.d_obs
    (StellarPopulation.self
       (snd (StellarPopulation.generate sample_normal 3 0.1%Q
               (start_runtime (StellarPopulation.__init__ 3.0%Q)))))
  = Some (observations sample_normal 3.0%Q 0.1%Q 0 3) /\
  (sample_clock 0 <= sample_clock 1)%Q /\
  exists time shown,
    fst (StellarPopulation.report sample_clock
           (snd (StellarPopulation.generate sample_normal 3 0.1%Q
                   (start_runtime (StellarPopulation.__init__ 3.0%Q)))))
    = Ok (np_mean (observations sample_normal 3.0%Q 0.1%Q 0 3), shown) /\
    (0 <= time)%Q /\ (0 <= shown)%Q.
Proof.
  assert (Ha : StellarPopulation.d_obs
                 (StellarPopulation.self
                    (snd (StellarPopulation.generate sample_normal 3 0.1%Q
                            (start_runtime (StellarPopulation.__init__ 3.0%Q)))))
               = Some (observations sample_normal 3.0%Q 0.1%Q 0 3)) by reflexivity.
  assert (Hc : (sample_clock 0 <= sample_clock 1)%Q) by (vm_compute; discriminate).
  split; [exact Ha|]. split; [exact Hc|].
  destruct (elapsed_time_nonnegative sample_clock _ _ Ha Hc)
    as [time [shown [_ [H2 [H3 H4]]]]].
  exists time, shown. split; [exact H2|]. split; [exact H3|exact H4].
Defined.

Lemma rint_of_integer (x : Q) (k : Z) : (x == inject_Z k)%Q -> rint x = k.
Proof.
  intros H. unfold rint. rewrite (Qfloor_comp _ _ H), Qfloor_Z.
  destruct (Qcompare_spec (x - inject_Z k) (1 # 2)) as [He|Hl|Hg];
    [exfalso; lra|reflexivity|exfalso; lra].
Qed.

(** X18.  Rounding to one decimal returns a multiple of one tenth unchanged,
    so rounding a displayed time again does not change it. *)
Theorem np_round_idempotent (x : Q) (k : Z) :
  (np_round (inject_Z k / 10) 1 == inject_Z k / 10)%Q /\
  (np_round (np_round x 1) 1 == np_round x 1)%Q.
Proof.
  assert (G : forall j : Z, (np_round (inject_Z j / 10) 1 == inject_Z j / 10)%Q).
  { intros j. unfold np_round.
    change (inject_Z (10 ^ Z.of_nat 1)) with 10%Q.
    rewrite (rint_of_integer (inject_Z j / 10 * 10) j) by field. reflexivity. }
  split; [apply G|].
  change (np_round x 1) with (inject_Z (rint (x * 10)) / 10)%Q.
  apply G.
Qed.

(** X19.  With a count of zero [generate] stores an empty observation list
    and an empty identifier list, and [estimate_mean_distance] then returns
    NumPy's [nan] (here [None]) together with the measured time; it does not
    raise. *)
Theorem empty_population_estimate
  (zs clock : nat -> Q) (sigma : Q) (r : StellarPopulation.Runtime) :
  let r1 := snd (StellarPopulation.generate zs 0 sigma r) in
  StellarPopulation.d_obs (StellarPopulation.self r1) = Some [] /\
  StellarPopulation.id (StellarPopulation.self r1) = Some [] /\
  StellarPopulation.randn_pos r1 = StellarPopulation.randn_pos r /\
  fst (StellarPopulation.estimate_mean_distance clock r1)
  = Ok (None, ((clock (S (StellarPopulation.clock_pos r))
                - clock (StellarPopulation.clock_pos r)) * 1e3)%Q).
Proof.
  intros r1. subst r1. rewrite generate_run.
  cbn [snd StellarPopulation.self StellarPopulation.d_obs StellarPopulation.id
       StellarPopulation.randn_pos].
  split; [reflexivity|]. split; [reflexivity|]. split; [apply Nat.add_0_r|].
  erewrite estimate_run by reflexivity. reflexivity.
Qed.
